(** * WHS course catalog: normalisation, filtering and grouping

    A shallow embedding of [src/CourseCatalog.jsx]: the [department] helper,
    the [COURSES] normalisation, the [filtered] memo and the [grouped] memo,
    followed by the properties of the catalog contract.

    Modelling conventions.
    - A JavaScript string is a [string]; [toLowerCase] folds the ASCII
      letters and leaves every other byte alone.
    - An optional text field of a raw record is an [option string]:
      [None] stands for a field that is absent ([undefined]) or [null].
      Both are falsy and nullish, so [||] and [??] do not tell them apart.
      [credits] is read with [??], which only looks at absence, so its
      value is kept as text like the other fields.
    - A thrown [TypeError] is [None] in the option monad; an expression that
      cannot throw is a plain function.
    - The object [map] of [grouped] is the list of its own properties in
      creation order, read through the prototype chain of an object
      literal; [localeCompare], the host's collation, is a parameter.
    - The [Set] of selected grades is a [gset Z]. *)

From Stdlib Require Import ZArith Ascii String.
From stdpp Require Import base option list sorting gmap strings.

Local Open Scope Z_scope.
Local Open Scope list_scope.

(** ** String primitives *)

(** [a.toLowerCase()] on one code unit. *)
Definition lower_ascii (a : ascii) : ascii :=
  let n := N_of_ascii a in
  if ((65 <=? n) && (n <=? 90))%N then ascii_of_N (n + 32) else a.

(** [s.toLowerCase()]. *)
Fixpoint toLowerCase (s : string) : string :=
  match s with
  | EmptyString => EmptyString
  | String a s' => String (lower_ascii a) (toLowerCase s')
  end.

(** [s.startsWith(p)]. *)
Fixpoint startsWith (s p : string) {struct p} : bool :=
  match p with
  | EmptyString => true
  | String b p' =>
      match s with
      | EmptyString => false
      | String a s' => if Ascii.eqb a b then startsWith s' p' else false
      end
  end.

(** [s.includes(q)]: [q] occurs in [s] at some position. *)
Fixpoint includes (s q : string) : bool :=
  startsWith s q ||
  match s with
  | EmptyString => false
  | String _ s' => includes s' q
  end.

(** Truthiness of a string: only the empty string is falsy. *)
Definition truthy (s : string) : bool := negb (String.eqb s "").

(** [v || d] for an optional text field [v]. *)
Definition or_else (v : option string) (d : string) : string :=
  match v with
  | Some s => if truthy s then s else d
  | None => d
  end.

(** [v ?? d] for an optional field [v]. *)
Definition nullish_else (v : option string) (d : string) : string :=
  match v with
  | Some s => s
  | None => d
  end.

(** The placeholder of a missing length, credits or diploma entry (an em
    dash, U+2014, in UTF-8). *)
Definition dash : string := "—".

(** ** Data model *)

Module Raw.

(** A record of [courses.json]. *)
Record t : Type := mk {
  code : string;
  name : string;
  subject : string;
  sub_subject : option string;
  tracks : list string;
  grades : option (list Z);
  duration : option string;
  credits : option string;
  prerequisites : option string;
  diploma_category : option string;
  description : option string;
  notes : option string;
  fees : option string
}.

End Raw.

Module Course.

(** An element of [COURSES]. *)
Record t : Type := mk {
  id : string;
  name : string;
  code : string;
  department : string;
  subject : string;
  tracks : list string;
  grades : option (list Z);
  length : string;
  credits : string;
  prerequisite : string;
  diploma : string;
  description : string;
  notes : string;
  fees : string;
  ap : bool
}.

End Course.

(** ** Normalisation *)

(** [function department(c)]. *)
Definition department (c : Raw.t) : string :=
  if String.eqb (Raw.subject c) "English" then "English"
  else or_else (Raw.sub_subject c) (Raw.subject c).

(** The callback of [rawCourses.map]. *)
Definition normalize1 (c : Raw.t) : Course.t :=
  {| Course.id := Raw.code c;
     Course.name := Raw.name c;
     Course.code := Raw.code c;
     Course.department := department c;
     Course.subject := Raw.subject c;
     Course.tracks := Raw.tracks c;
     Course.grades := Raw.grades c;
     Course.length := or_else (Raw.duration c) dash;
     Course.credits := nullish_else (Raw.credits c) dash;
     Course.prerequisite := or_else (Raw.prerequisites c) "None";
     Course.diploma := or_else (Raw.diploma_category c) dash;
     Course.description := or_else (Raw.description c) "";
     Course.notes := or_else (Raw.notes c) "";
     Course.fees := or_else (Raw.fees c) "";
     Course.ap := startsWith (Raw.name c) "AP " |}.

(** [COURSES = rawCourses.map(...)]. *)
Definition normalize (rawCourses : list Raw.t) : list Course.t :=
  map normalize1 rawCourses.

(** ** Filter engine *)

(** The filter state held by the component. *)
Record FilterState : Type := mkState {
  selectedGrades : gset Z;
  selectedDept : string;
  searchQuery : string;
  apOnly : bool
}.

(** The initial values passed to [useState]. *)
Definition initialState : FilterState :=
  {| selectedGrades := {[ 9; 10; 11; 12 ]};
     selectedDept := "All";
     searchQuery := "";
     apOnly := false |}.

(** [c.grades.some((g) => selectedGrades.has(g))]; reading [some] off an
    absent [grades] throws. *)
Definition gradeCheck (sel : gset Z) (c : Course.t) : option bool :=
  gs ← Course.grades c;
  Some (existsb (λ g, bool_decide (g ∈ sel)) gs).

(** The four-way disjunction evaluated when [searchQuery] is truthy. *)
Definition textMatch (searchQuery : string) (c : Course.t) : bool :=
  let q := toLowerCase searchQuery in
  includes (toLowerCase (Course.name c)) q ||
  includes (toLowerCase (Course.code c)) q ||
  includes (toLowerCase (Course.department c)) q ||
  includes (toLowerCase (Course.description c)) q.

(** The callback of [COURSES.filter]. *)
Definition keep (st : FilterState) (c : Course.t) : option bool :=
  g ← gradeCheck (selectedGrades st) c;
  if negb g then Some false
  else if negb (String.eqb (selectedDept st) "All") &&
          negb (String.eqb (Course.department c) (selectedDept st))
  then Some false
  else if apOnly st && negb (Course.ap c) then Some false
  else if truthy (searchQuery st) then Some (textMatch (searchQuery st) c)
  else Some true.

(** [Array.prototype.filter] with a callback that may throw: the callback
    runs on the elements from left to right and the first exception
    aborts the whole call. *)
Fixpoint arrayFilter {A : Type} (f : A → option bool) (l : list A)
  : option (list A) :=
  match l with
  | [] => Some []
  | x :: l' =>
      b ← f x;
      r ← arrayFilter f l';
      Some (if b : bool then x :: r else r)
  end.

(** The [filtered] memo. *)
Definition filtered (st : FilterState) (COURSES : list Course.t)
  : option (list Course.t) :=
  arrayFilter (keep st) COURSES.

(** ** Grouping stage *)

(** The own properties of the object [map], in creation order.  Every
    value stored by [grouped] is an array of courses. *)
Definition obj : Type := list (string * list Course.t).

(** The property names an object literal inherits from
    [Object.prototype].  Each of them reads as a function (or, for
    [__proto__], as the prototype object): a truthy value without a
    [push] method. *)
Definition objectPrototypeKeys : list string :=
  [ "constructor"; "hasOwnProperty"; "isPrototypeOf";
    "propertyIsEnumerable"; "toLocaleString"; "toString"; "valueOf";
    "__proto__"; "__defineGetter__"; "__defineSetter__";
    "__lookupGetter__"; "__lookupSetter__" ].

(** The outcome of reading [map[k]]. *)
Inductive propertyValue : Type :=
  | OwnArray (bucket : list Course.t)
  | Inherited
  | Undefined.

Fixpoint getOwn (k : string) (map : obj) : option (list Course.t) :=
  match map with
  | [] => None
  | (k', b) :: map' => if String.eqb k' k then Some b else getOwn k map'
  end.

(** [map[k]]: an own property shadows an inherited one. *)
Definition get (k : string) (map : obj) : propertyValue :=
  match getOwn k map with
  | Some b => OwnArray b
  | None =>
      if existsb (String.eqb k) objectPrototypeKeys then Inherited
      else Undefined
  end.

(** [map[k].push(c)] on an own array. *)
Fixpoint pushOwn (k : string) (c : Course.t) (map : obj) : obj :=
  match map with
  | [] => []
  | (k', b) :: map' =>
      if String.eqb k' k then (k', b ++ [c]) :: map'
      else (k', b) :: pushOwn k c map'
  end.

(** The body of [filtered.forEach]:
    [if (!map[d]) map[d] = []; map[d].push(c)]. *)
Definition groupStep (map : obj) (c : Course.t) : option obj :=
  let d := Course.department c in
  match get d map with
  | OwnArray _ => Some (pushOwn d c map)
  | Undefined => Some (map ++ [(d, [c])])
  | Inherited => None
  end.

(** [Array.prototype.forEach] threading the object through a body that
    may throw. *)
Fixpoint forEach {A S : Type} (body : S → A → option S) (s : S) (l : list A)
  : option S :=
  match l with
  | [] => Some s
  | x :: l' => s' ← body s x; forEach body s' l'
  end.

(** A stable sort by a comparator in the style of
    [Array.prototype.sort]: of two elements [x] before [y], [y] moves in
    front of [x] only when [cmp x y] is positive. *)
Fixpoint insertBy {A : Type} (cmp : A → A → Z) (x : A) (l : list A)
  : list A :=
  match l with
  | [] => [x]
  | y :: l' => if cmp x y <=? 0 then x :: y :: l' else y :: insertBy cmp x l'
  end.

Definition sortBy {A : Type} (cmp : A → A → Z) (l : list A) : list A :=
  foldr (insertBy cmp) [] l.

Definition digit (a : ascii) : option N :=
  let n := N_of_ascii a in
  if ((48 <=? n) && (n <=? 57))%N then Some (n - 48)%N else None.

Fixpoint parseDigits (acc : N) (s : string) : option N :=
  match s with
  | EmptyString => Some acc
  | String a s' => d ← digit a; parseDigits (10 * acc + d)%N s'
  end.

(** A property key is an array index when it is the canonical decimal
    form of an integer below [2^32 - 1]. *)
Definition arrayIndex (k : string) : option N :=
  match k with
  | EmptyString => None
  | String a k' =>
      if Ascii.eqb a "0" then
        match k' with EmptyString => Some 0%N | _ => None end
      else
        n ← parseDigits 0 k;
        if (n <? 2 ^ 32 - 1)%N then Some n else None
  end.

Definition isIndexKey (e : string * list Course.t) : bool :=
  match arrayIndex e.1 with Some _ => true | None => false end.

Definition indexOrder (a b : string * list Course.t) : Z :=
  Z.of_N (default 0%N (arrayIndex a.1)) - Z.of_N (default 0%N (arrayIndex b.1)).

(** [Object.entries(map)]: array-index keys in ascending numeric order,
    then the other keys in creation order. *)
Definition entries (map : obj) : list (string * list Course.t) :=
  sortBy indexOrder (List.filter isIndexKey map) ++
  List.filter (λ e, negb (isIndexKey e)) map.

(** The [grouped] memo.  [localeCompare] is the host's collation,
    [a.localeCompare(b)]. *)
Definition grouped (localeCompare : string → string → Z)
    (filtered : list Course.t) : option (list (string * list Course.t)) :=
  map ← forEach groupStep [] filtered;
  Some (sortBy (λ a b, localeCompare a.1 b.1) (entries map)).

(** Byte-wise comparison, a collation that agrees with the host's on
    names that differ first in letters of one case. *)
Fixpoint byteCompare (a b : string) : Z :=
  match a, b with
  | EmptyString, EmptyString => 0
  | EmptyString, String _ _ => -1
  | String _ _, EmptyString => 1
  | String x a', String y b' =>
      if Ascii.eqb x y then byteCompare a' b'
      else Z.of_N (N_of_ascii x) - Z.of_N (N_of_ascii y)
  end.

(** ** Sample data *)

Definition course (name code dept desc : string) (gs : list Z) : Course.t :=
  {| Course.id := code; Course.name := name; Course.code := code;
     Course.department := dept; Course.subject := dept;
     Course.tracks := []; Course.grades := Some gs;
     Course.length := dash; Course.credits := dash;
     Course.prerequisite := "None"; Course.diploma := dash;
     Course.description := desc; Course.notes := ""; Course.fees := "";
     Course.ap := startsWith name "AP " |}.

Definition apBiology : Course.t :=
  course "AP Biology" "SCI500" "Science" "College-level biology." [11; 12].
Definition biology : Course.t :=
  course "Biology" "SCI200" "Science" "Cells and ecosystems." [9; 10].
Definition algebra : Course.t :=
  course "Algebra 1" "MTH100" "Mathematics" "Linear equations." [9].
Definition gardening : Course.t :=
  course "Gardening" "CTE310" "Other CTE" "Hosted by the biology club." [10; 11].

Definition sampleCourses : list Course.t :=
  [apBiology; algebra; biology; gardening].

(** ** Vocabulary of the catalog contract *)

(** [q] is a substring of [s]. *)
Definition occursIn (q s : string) : Prop :=
  ∃ pre post : string, s = pre +:+ q +:+ post.

(** The four fields the search looks at. *)
Definition searchedFields (c : Course.t) : list string :=
  [Course.name c; Course.code c; Course.department c; Course.description c].

(** The query is a substring of one of the searched fields, up to case. *)
Definition matchesText (q : string) (c : Course.t) : Prop :=
  Exists (λ f, occursIn (toLowerCase q) (toLowerCase f)) (searchedFields c).

(** The grades of a course share an element with the selection. *)
Definition gradeMatch (sel : gset Z) (c : Course.t) : Prop :=
  Exists (λ g, g ∈ sel) (default [] (Course.grades c)).

(** Inclusion as the contract words it: grade-match and dept-match and
    ap-match and (query-empty or text-match). *)
Definition included (st : FilterState) (c : Course.t) : Prop :=
  gradeMatch (selectedGrades st) c ∧
  (selectedDept st = "All" ∨ Course.department c = selectedDept st) ∧
  (apOnly st = false ∨ Course.ap c = true) ∧
  (searchQuery st = "" ∨ matchesText (searchQuery st) c).

(** A canonical course carries its list of grades. *)
Definition hasGrades (c : Course.t) : Prop := is_Some (Course.grades c).

Definition canonical (cs : list Course.t) : Prop := Forall hasGrades cs.

(** The grades of a course are a non-empty selection from 9 to 12. *)
Definition gradesInRange (c : Course.t) : Prop :=
  ∃ gs, Course.grades c = Some gs ∧ gs ≠ [] ∧
        Forall (λ g, g ∈ [9; 10; 11; 12]) gs.

(** A raw record with every defaulted optional field left out. *)
Definition omitOptionals (c : Raw.t) : Raw.t :=
  {| Raw.code := Raw.code c; Raw.name := Raw.name c;
     Raw.subject := Raw.subject c; Raw.sub_subject := Raw.sub_subject c;
     Raw.tracks := Raw.tracks c; Raw.grades := Raw.grades c;
     Raw.duration := None; Raw.credits := None;
     Raw.prerequisites := None; Raw.diploma_category := None;
     Raw.description := None; Raw.notes := None; Raw.fees := None |}.

(** The same record with the documented defaults written out. *)
Definition supplyDefaults (c : Raw.t) : Raw.t :=
  {| Raw.code := Raw.code c; Raw.name := Raw.name c;
     Raw.subject := Raw.subject c; Raw.sub_subject := Raw.sub_subject c;
     Raw.tracks := Raw.tracks c; Raw.grades := Raw.grades c;
     Raw.duration := Some dash; Raw.credits := Some dash;
     Raw.prerequisites := Some "None"; Raw.diploma_category := Some dash;
     Raw.description := Some ""; Raw.notes := Some ""; Raw.fees := Some "" |}.

Definition rawCourse (code name subject : string) (sub : option string)
    (gs : option (list Z)) : Raw.t :=
  {| Raw.code := code; Raw.name := name; Raw.subject := subject;
     Raw.sub_subject := sub; Raw.tracks := []; Raw.grades := gs;
     Raw.duration := Some "Semester"; Raw.credits := Some "0.5";
     Raw.prerequisites := None; Raw.diploma_category := Some "Elective";
     Raw.description := Some "A course."; Raw.notes := None;
     Raw.fees := None |}.

(** ** The rest of the component *)

(** [set.add(x)] on a [Set] kept in iteration order: a value already
    present stays where it is. *)
Definition setAdd (s : list string) (x : string) : list string :=
  if existsb (String.eqb x) s then s else s ++ [x].

(** [[...new Set(xs)]]: the distinct values of [xs] in first-seen order. *)
Definition newSet (xs : list string) : list string := fold_left setAdd xs [].

(** [DEPARTMENTS = [...new Set(COURSES.map((c) => c.department))].sort()].
    Without a comparator [sort] orders strings by their code units,
    which is [byteCompare]. *)
Definition DEPARTMENTS (COURSES : list Course.t) : list string :=
  sortBy byteCompare (newSet (map Course.department COURSES)).

(** The updater of [toggleGrade]: copy the set, then [delete] the grade
    when it is there and [add] it when it is not. *)
Definition toggleGrade (g : Z) (prev : gset Z) : gset Z :=
  if decide (g ∈ prev) then prev ∖ {[ g ]} else {[ g ]} ∪ prev.

(** The state of the component: the filter state and [expandedId]
    ([None] is [null]). *)
Record ViewState : Type := mkView {
  filterState : FilterState;
  expandedId : option string
}.

Definition initialView : ViewState := mkView initialState None.

(** [expandedId === course.id]. *)
Definition isOpen (expanded : option string) (c : Course.t) : bool :=
  match expanded with
  | Some i => String.eqb i (Course.id c)
  | None => false
  end.

(** What the user can do to the page: type into the search box, click a
    grade button, click the AP button, choose an option of the department
    select, click the card of a course. *)
Inductive event : Type :=
  | SearchInput (value : string)
  | GradeClick (g : Z)
  | ApClick
  | DeptChange (value : string)
  | CardClick (c : Course.t).

(** The event handlers of the JSX. *)
Definition handle (e : event) (v : ViewState) : ViewState :=
  let st := filterState v in
  match e with
  | SearchInput value =>
      mkView (mkState (selectedGrades st) (selectedDept st) value (apOnly st))
        (expandedId v)
  | GradeClick g =>
      mkView (mkState (toggleGrade g (selectedGrades st)) (selectedDept st)
                (searchQuery st) (apOnly st))
        (expandedId v)
  | ApClick =>
      mkView (mkState (selectedGrades st) (selectedDept st) (searchQuery st)
                (negb (apOnly st)))
        (expandedId v)
  | DeptChange value =>
      mkView (mkState (selectedGrades st) value (searchQuery st) (apOnly st))
        (expandedId v)
  | CardClick c =>
      mkView st (if isOpen (expandedId v) c then None else Some (Course.id c))
  end.

(** The events the rendered page offers: grade buttons exist for 9 to
    12, the select holds "All" and the departments, and a card exists for
    each course of a group.  (A page that failed to render offers
    nothing; leaving that out only admits more runs.) *)
Definition offered (localeCompare : string → string → Z)
    (COURSES : list Course.t) (v : ViewState) (e : event) : Prop :=
  match e with
  | SearchInput _ | ApClick => True
  | GradeClick g => g ∈ [9; 10; 11; 12]
  | DeptChange value => value ∈ "All" :: DEPARTMENTS COURSES
  | CardClick c =>
      ∃ r gs, filtered (filterState v) COURSES = Some r ∧
              grouped localeCompare r = Some gs ∧ c ∈ concat gs.*2
  end.

(** The states the page can be brought into. *)
Inductive reachable (localeCompare : string → string → Z)
    (COURSES : list Course.t) : ViewState → Prop :=
  | reachable_initial : reachable localeCompare COURSES initialView
  | reachable_handle (v : ViewState) (e : event) :
      reachable localeCompare COURSES v →
      offered localeCompare COURSES v e →
      reachable localeCompare COURSES (handle e v).

(** An entry of [GRADE_COLORS]. *)
Record Colors : Type := mkColors {
  bg : string;
  text : string;
  border : string
}.

(** [GRADE_COLORS[g]]: the table has the keys 9, 10, 11 and 12, and a
    number is never the name of an inherited property. *)
Definition GRADE_COLORS (g : Z) : option Colors :=
  if g =? 9 then Some (mkColors "#e3f2fd" "#1565c0" "#90caf9")
  else if g =? 10 then Some (mkColors "#e8f5e9" "#2e7d32" "#a5d6a7")
  else if g =? 11 then Some (mkColors "#fff3e0" "#e65100" "#ffcc80")
  else if g =? 12 then Some (mkColors "#fce4ec" "#880e4f" "#f48fb1")
  else None.

(** What a grade bubble takes from its grade: the key and label, and
    the three colours of its style. *)
Record Bubble : Type := mkBubble {
  bubbleGrade : Z;
  bubbleBackground : string;
  bubbleColor : string;
  bubbleBorder : string
}.

(** The callback of [course.grades.map] in the card header; reading
    [bg] off a missing table entry throws. *)
Definition gradeBubble (g : Z) : option Bubble :=
  colors ← GRADE_COLORS g;
  Some (mkBubble g (bg colors) (text colors)
          ("1.5px solid " +:+ border colors)).

(** The grade bubbles of a card. *)
Definition gradeBubbles (c : Course.t) : option (list Bubble) :=
  gs ← Course.grades c;
  mapM gradeBubble gs.

(** Two sample courses that share a code. *)
Definition sharedCode : list Course.t :=
  [ course "Band" "ART100" "Performing Arts" "" [9];
    course "Choir" "ART100" "Performing Arts" "" [9] ].

(** The courses of one department, in the order of the list. *)
Definition bucketOf (d : string) (cs : list Course.t) : list Course.t :=
  filter (λ c, Course.department c = d) cs.

(** The department of the course is a name inherited from
    [Object.prototype]. *)
Definition inheritedDept (c : Course.t) : Prop :=
  Course.department c ∈ objectPrototypeKeys.

(** No department of the list collides with an inherited name. *)
Definition plainDepartments (cs : list Course.t) : Prop :=
  Forall (λ c, ¬ inheritedDept c) cs.

(** Two names are in collation order. *)
Definition collates (cmp : string → string → Z) (a b : string) : Prop :=
  cmp a b ≤ 0.

(** A consistent comparator, as [Array.prototype.sort] expects: any two
    names are comparable, and the order is transitive. *)
Definition consistent (cmp : string → string → Z) : Prop :=
  (∀ a b, collates cmp a b ∨ collates cmp b a) ∧
  (∀ a b c, collates cmp a b → collates cmp b c → collates cmp a c).

(** [gs] groups [cs] by department: one pair per department that occurs,
    each holding the courses of its department in their order in [cs],
    the pairs in collation order of their names. *)
Definition isGrouping (cmp : string → string → Z) (cs : list Course.t)
    (gs : list (string * list Course.t)) : Prop :=
  NoDup gs.*1 ∧
  (∀ d b, (d, b) ∈ gs → b = bucketOf d cs ∧ b ≠ []) ∧
  (∀ c, c ∈ cs → Course.department c ∈ gs.*1) ∧
  concat gs.*2 ≡ₚ cs ∧
  StronglySorted (λ a b, collates cmp a.1 b.1) gs.

(** What holds of the object [map] after the courses [p] went through
    the loop. *)
Definition groupInv (p : list Course.t) (m : obj) : Prop :=
  NoDup m.*1 ∧
  (∀ d b, getOwn d m = Some b → b = bucketOf d p ∧ b ≠ []) ∧
  (∀ c, c ∈ p → is_Some (getOwn (Course.department c) m)) ∧
  (∀ d, d ∈ m.*1 → d ∉ objectPrototypeKeys) ∧
  concat m.*2 ≡ₚ p.

Definition honorsEnglish : Raw.t :=
  rawCourse "ENG210" "Honors English 10" "English" (Some "Literature")
    (Some [10]).
Definition robotics : Raw.t :=
  rawCourse "CTE340" "Robotics" "CTE" (Some "Technology & Engineering")
    (Some [9; 10]).
Definition chemistry : Raw.t :=
  rawCourse "SCI300" "Chemistry" "Science" None (Some [10; 11]).
Definition physics : Raw.t :=
  rawCourse "SCI400" "Physics" "Science" (Some "") (Some [11]).
Definition rawNamed (name : string) : Raw.t :=
  rawCourse "SCI500" name "Science" None (Some [11; 12]).
Definition studyHall (gs : option (list Z)) : Raw.t :=
  rawCourse "FLX010" "Study Hall" "Flexible Credits" None gs.

(** Raw records in which one subject is spelled like a property every
    object inherits. *)
Definition inheritedRaws : list Raw.t :=
  [ rawCourse "SCI200" "Biology" "Science" None (Some [9; 10]);
    rawCourse "CTE120" "Building Trades" "constructor" None (Some [11; 12]) ].

(** * Properties *)

(** ** Strings *)

Lemma append_cons (a : ascii) (s t : string) :
  String a s +:+ t = String a (s +:+ t).
Proof. reflexivity. Qed.


Lemma startsWith_spec (s p : string) :
  startsWith s p = true ↔ ∃ rest : string, s = p +:+ rest.
Proof.
  revert s. induction p as [|b p IH]; intros s; simpl.
  - split; [intros _; by exists s | done].
  - setoid_rewrite append_cons. destruct s as [|a s].
    + split; [done | intros [rest H]; discriminate H].
    + destruct (Ascii.eqb a b) eqn:E.
      * apply Ascii.eqb_eq in E as ->. rewrite IH.
        split; intros [rest H]; exists rest; congruence.
      * apply Ascii.eqb_neq in E.
        split; [done | intros [rest H]; congruence].
Qed.

Lemma includes_spec (s q : string) : includes s q = true ↔ occursIn q s.
Proof.
  unfold occursIn. induction s as [|a s IH]; simpl.
  - rewrite orb_false_r, startsWith_spec. split.
    + intros [rest H]. by exists "", rest.
    + intros (pre & post & H). destruct pre as [|a pre].
      * by exists post.
      * rewrite append_cons in H. discriminate H.
  - rewrite orb_true_iff, startsWith_spec, IH. split.
    + intros [[rest H] | (pre & post & H)].
      * by exists "", rest.
      * exists (String a pre), post. by rewrite append_cons, H.
    + intros (pre & post & H). destruct pre as [|a' pre].
      * left. by exists post.
      * right. exists pre, post. rewrite append_cons in H. congruence.
Qed.

Lemma truthy_spec (s : string) : truthy s = true ↔ s ≠ "".
Proof.
  unfold truthy. rewrite negb_true_iff. split.
  - intros H ->. by rewrite String.eqb_refl in H.
  - intros H. by apply String.eqb_neq.
Qed.

Lemma textMatch_spec (q : string) (c : Course.t) :
  textMatch q c = true ↔ matchesText q c.
Proof.
  unfold textMatch, matchesText, searchedFields.
  rewrite !orb_true_iff, !includes_spec, !Exists_cons, Exists_nil.
  tauto.
Qed.

Lemma string_eqb_false (s t : string) : s ≠ t → String.eqb s t = false.
Proof. intros H. by apply String.eqb_neq. Qed.

Lemma or_else_some (s d : string) : s ≠ "" → or_else (Some s) d = s.
Proof.
  intros H. unfold or_else. by rewrite (proj2 (truthy_spec s) H).
Qed.

Lemma or_else_default (d : string) : or_else (Some d) d = d.
Proof. unfold or_else. by destruct (truthy d). Qed.

(** ** Normaliser *)

(** C5: the derived department is "English" whenever the subject is
    "English", whatever the sub-subject; otherwise it is the sub-subject
    when that is present and non-empty, and the subject when the
    sub-subject is absent or empty. *)
Theorem department_derivation (c : Raw.t) :
  (Raw.subject c = "English" → department c = "English") ∧
  (Raw.subject c ≠ "English" →
     ∀ s, Raw.sub_subject c = Some s → s ≠ "" → department c = s) ∧
  (Raw.subject c ≠ "English" →
     Raw.sub_subject c = None ∨ Raw.sub_subject c = Some "" →
     department c = Raw.subject c).
Proof.
  unfold department. repeat split.
  - intros ->. reflexivity.
  - intros Hsub s Hs Hne.
    rewrite (string_eqb_false _ _ Hsub), Hs. by apply or_else_some.
  - intros Hsub Habs. rewrite (string_eqb_false _ _ Hsub).
    by destruct Habs as [-> | ->].
Qed.

Lemma department_derivation_witness :
  department honorsEnglish = "English" ∧
  department robotics = "Technology & Engineering" ∧
  department chemistry = "Science" ∧
  department physics = "Science".
Proof.
  split; [| split; [| split]].
  - apply (proj1 (department_derivation honorsEnglish)). reflexivity.
  - apply (proj1 (proj2 (department_derivation robotics)));
      [discriminate | reflexivity | discriminate].
  - apply (proj2 (proj2 (department_derivation chemistry)));
      [discriminate | left; reflexivity].
  - apply (proj2 (proj2 (department_derivation physics)));
      [discriminate | right; reflexivity].
Defined.

(** C6: the derived [ap] flag is true exactly when the name starts with
    the three characters "AP " (upper-case A, upper-case P, space); so
    "AP Biology" is flagged, and "APPLIED Math" and "ap Biology" are not. *)
Theorem ap_flag_prefix (c : Raw.t) :
  (Course.ap (normalize1 c) = true ↔ ∃ rest, Raw.name c = "AP " +:+ rest) ∧
  Course.ap (normalize1 (rawNamed "AP Biology")) = true ∧
  Course.ap (normalize1 (rawNamed "APPLIED Math")) = false ∧
  Course.ap (normalize1 (rawNamed "ap Biology")) = false.
Proof.
  split; [| by repeat split].
  change (Course.ap (normalize1 c)) with (startsWith (Raw.name c) "AP ").
  apply startsWith_spec.
Qed.

(** C9: normalising a record whose defaulted optional fields are left out
    gives the same canonical course as normalising it with the documented
    defaults written out (duration, credits and diploma category an em
    dash, prerequisites "None", description, notes and fees empty). *)
Theorem normalize_defaults_noop (c : Raw.t) :
  normalize1 (supplyDefaults c) = normalize1 (omitOptionals c) ∧
  ∀ cs, normalize (map supplyDefaults cs) = normalize (map omitOptionals cs).
Proof.
  assert (H : ∀ r, normalize1 (supplyDefaults r) = normalize1 (omitOptionals r)).
  { intros r. unfold normalize1, department, supplyDefaults, omitOptionals.
    cbn [Raw.code Raw.name Raw.subject Raw.sub_subject Raw.tracks Raw.grades
         Raw.duration Raw.credits Raw.prerequisites Raw.diploma_category
         Raw.description Raw.notes Raw.fees nullish_else].
    by rewrite !or_else_default. }
  split; [apply H |].
  intros cs. unfold normalize. rewrite <- !list_fmap_compose.
  apply list_fmap_ext. intros _ r _. apply H.
Qed.

(** ** Text search *)

Lemma keep_text_stage (st : FilterState) (c : Course.t) (gs : list Z) :
  Course.grades c = Some gs →
  existsb (λ g, bool_decide (g ∈ selectedGrades st)) gs = true →
  selectedDept st = "All" ∨ Course.department c = selectedDept st →
  apOnly st = false ∨ Course.ap c = true →
  searchQuery st ≠ "" →
  keep st c = Some (textMatch (searchQuery st) c).
Proof.
  intros Hg He Hd Ha Hq. unfold keep, gradeCheck. rewrite Hg. simpl.
  rewrite He. simpl.
  replace (negb (String.eqb (selectedDept st) "All") &&
           negb (String.eqb (Course.department c) (selectedDept st)))
    with false.
  2:{ destruct Hd as [-> | ->]; [done |].
      by rewrite String.eqb_refl, andb_false_r. }
  replace (apOnly st && negb (Course.ap c)) with false
    by (destruct Ha as [-> | ->]; [done | by rewrite andb_false_r]).
  by rewrite (proj2 (truthy_spec _) Hq).
Qed.

(** C2: for a non-empty query, the text check of the filter holds exactly
    when the lower-cased query is a substring of the lower-cased name,
    code, department or description; two courses that agree on these four
    fields get the same answer, so nothing else is searched; and the
    filter's verdict on a course that passed the grade, department and AP
    checks is this text check. *)
Theorem textMatch_four_fields (q : string) (c : Course.t) :
  q ≠ "" →
  (textMatch q c = true ↔
     occursIn (toLowerCase q) (toLowerCase (Course.name c)) ∨
     occursIn (toLowerCase q) (toLowerCase (Course.code c)) ∨
     occursIn (toLowerCase q) (toLowerCase (Course.department c)) ∨
     occursIn (toLowerCase q) (toLowerCase (Course.description c))) ∧
  (∀ c', searchedFields c' = searchedFields c →
         textMatch q c' = textMatch q c) ∧
  (∀ sel d a gs,
     Course.grades c = Some gs →
     existsb (λ g, bool_decide (g ∈ sel)) gs = true →
     d = "All" ∨ Course.department c = d →
     a = false ∨ Course.ap c = true →
     keep (mkState sel d q a) c = Some (textMatch q c)).
Proof.
  intros Hq. split; [| split].
  - unfold textMatch. rewrite !orb_true_iff, !includes_spec. tauto.
  - intros c' Hf. unfold searchedFields in Hf.
    injection Hf as Hn Hc Hd He. unfold textMatch.
    by rewrite Hn, Hc, Hd, He.
  - intros sel d a gs Hg He Hd Ha.
    by apply (keep_text_stage (mkState sel d q a) c gs).
Qed.

Lemma textMatch_four_fields_witness :
  "BIO" ≠ "" ∧
  textMatch "bio" biology = true ∧
  textMatch "bio" gardening = true ∧
  textMatch "bio" algebra = false ∧
  keep (mkState {[ 9; 10 ]} "All" "BIO" false) biology = Some true.
Proof.
  assert (Hq : "BIO" ≠ "") by discriminate.
  split; [exact Hq |].
  split; [reflexivity |]. split; [reflexivity |]. split; [reflexivity |].
  pose proof (textMatch_four_fields "BIO" biology Hq) as (_ & _ & Hkeep).
  rewrite (Hkeep {[ 9; 10 ]} "All" false [9; 10]).
  - reflexivity.
  - reflexivity.
  - by vm_compute.
  - by left.
  - by left.
Defined.

(** ** Filter engine *)

#[global] Instance occursIn_dec (q s : string) : Decision (occursIn q s).
Proof.
  destruct (includes s q) eqn:E; [left | right];
    rewrite <- includes_spec; congruence.
Defined.

#[global] Instance included_dec (st : FilterState) (c : Course.t) :
  Decision (included st c).
Proof. unfold included, gradeMatch, matchesText. apply _. Defined.

Lemma existsb_elem_of (sel : gset Z) (gs : list Z) :
  existsb (λ g, bool_decide (g ∈ sel)) gs = true ↔ Exists (λ g, g ∈ sel) gs.
Proof.
  induction gs as [|g gs IH]; simpl.
  - rewrite Exists_nil. split; [discriminate | tauto].
  - by rewrite orb_true_iff, bool_decide_eq_true, IH, Exists_cons.
Qed.

Lemma gradeCheck_spec (sel : gset Z) (c : Course.t) :
  hasGrades c →
  ∃ b, gradeCheck sel c = Some b ∧ (b = true ↔ gradeMatch sel c).
Proof.
  intros [gs Hgs]. unfold gradeCheck, gradeMatch. rewrite Hgs. simpl.
  eexists. split; [reflexivity | apply existsb_elem_of].
Qed.

Lemma gradeCheck_absent (sel : gset Z) (c : Course.t) :
  Course.grades c = None → gradeCheck sel c = None.
Proof. intros H. unfold gradeCheck. by rewrite H. Qed.

Lemma dept_stage (sel c : string) :
  negb (String.eqb sel "All") && negb (String.eqb c sel) = false
  ↔ sel = "All" ∨ c = sel.
Proof.
  rewrite andb_false_iff, !negb_false_iff, !String.eqb_eq. tauto.
Qed.

Lemma ap_stage (a b : bool) : a && negb b = false ↔ a = false ∨ b = true.
Proof. destruct a, b; simpl; intuition congruence. Qed.

(** The callback answers a course that carries its grades, and says yes
    exactly when the course is included. *)
Lemma keep_spec (st : FilterState) (c : Course.t) :
  hasGrades c → ∃ b, keep st c = Some b ∧ (b = true ↔ included st c).
Proof.
  intros Hc. unfold keep, included.
  destruct (gradeCheck_spec (selectedGrades st) c Hc) as (g & -> & Hg).
  simpl. destruct g; simpl.
  2:{ exists false. split; [done |]. split; [done |].
      intros [H _]. by apply Hg in H. }
  pose proof (dept_stage (selectedDept st) (Course.department c)) as Hd.
  destruct (negb (String.eqb (selectedDept st) "All") && _).
  { exists false. split; [done |]. split; [done |].
    intros (_ & H & _). by apply Hd in H. }
  pose proof (ap_stage (apOnly st) (Course.ap c)) as Ha.
  destruct (apOnly st && negb (Course.ap c)).
  { exists false. split; [done |]. split; [done |].
    intros (_ & _ & H & _). by apply Ha in H. }
  assert (Hgm : gradeMatch (selectedGrades st) c) by by apply Hg.
  assert (Hdm : selectedDept st = "All" ∨ Course.department c = selectedDept st)
    by by apply Hd.
  assert (Ham : apOnly st = false ∨ Course.ap c = true) by by apply Ha.
  destruct (truthy (searchQuery st)) eqn:Hq.
  - apply truthy_spec in Hq. eexists. split; [reflexivity |].
    rewrite textMatch_spec. split; [tauto |]. intros (_ & _ & _ & [H | H]); done.
  - exists true. split; [done |]. split; [| done]. intros _.
    repeat split; try done. left.
    destruct (decide (searchQuery st = "")) as [| Hne]; [done |].
    apply truthy_spec in Hne. congruence.
Qed.

Lemma keep_absent (st : FilterState) (c : Course.t) :
  Course.grades c = None → keep st c = None.
Proof. intros H. unfold keep. by rewrite gradeCheck_absent. Qed.

Lemma keep_some_hasGrades (st : FilterState) (c : Course.t) (b : bool) :
  keep st c = Some b → hasGrades c.
Proof.
  intros H. unfold hasGrades. destruct (Course.grades c) eqn:E; [by eexists |].
  by rewrite keep_absent in H.
Qed.

Section array_filter.
Context {A : Type} (f : A → option bool) (P : A → Prop).
Context `{!∀ x, Decision (P x)}.

(** When the callback never throws on the elements of [l] and decides
    [P], [arrayFilter] is the list filter by [P]. *)
Lemma arrayFilter_filter (l : list A) :
  Forall (λ x, ∃ b, f x = Some b ∧ (b = true ↔ P x)) l →
  arrayFilter f l = Some (filter P l).
Proof.
  induction 1 as [| x l (b & Hb & HP) _ IH]; [done |].
  simpl. rewrite Hb, IH. simpl. f_equal.
  destruct b.
  - by rewrite filter_cons_True by by apply HP.
  - rewrite filter_cons_False; [done |]. intros Hx. by apply HP in Hx.
Qed.

(** One throwing element makes the whole call throw. *)
Lemma arrayFilter_throw (pre post : list A) (x : A) :
  f x = None → arrayFilter f (pre ++ x :: post) = None.
Proof.
  intros Hx. induction pre as [| y pre IH]; simpl.
  - by rewrite Hx.
  - rewrite IH. by destruct (f y).
Qed.

(** An element the callback rejects can be dropped from the input. *)
Lemma arrayFilter_rejected (pre post : list A) (x : A) :
  f x = Some false →
  arrayFilter f (pre ++ x :: post) = arrayFilter f (pre ++ post).
Proof.
  intros Hx. induction pre as [| y pre IH]; simpl.
  - rewrite Hx. simpl. by destruct (arrayFilter f post).
  - by rewrite IH.
Qed.

End array_filter.

Lemma filter_mono_sublist {A : Type} (P Q : A → Prop)
    `{!∀ x, Decision (P x)} `{!∀ x, Decision (Q x)} (l : list A) :
  (∀ x, P x → Q x) → filter P l `sublist_of` filter Q l.
Proof.
  intros HPQ. induction l as [| x l IH]; [done |].
  rewrite !filter_cons. destruct (decide (P x)) as [HP | HP].
  - rewrite decide_True by by apply HPQ. by constructor.
  - destruct (decide (Q x)); [by constructor | done].
Qed.

Lemma filter_all {A : Type} (P : A → Prop) `{!∀ x, Decision (P x)}
    (l : list A) :
  Forall P l → filter P l = l.
Proof.
  induction 1 as [| x l Hx _ IH]; [done |].
  by rewrite filter_cons_True, IH.
Qed.

Lemma filter_none {A : Type} (P : A → Prop) `{!∀ x, Decision (P x)}
    (l : list A) :
  Forall (λ x, ¬ P x) l → filter P l = [].
Proof.
  induction 1 as [| x l Hx _ IH]; [done |].
  by rewrite filter_cons_False.
Qed.

(** On a canonical list the [filtered] memo is the list filter by
    [included]. *)
Lemma filtered_filter (st : FilterState) (cs : list Course.t) :
  canonical cs → filtered st cs = Some (filter (included st) cs).
Proof.
  intros Hcs. unfold filtered. apply arrayFilter_filter.
  eapply Forall_impl; [exact Hcs |]. intros c Hc. by apply keep_spec.
Qed.

(** With the AP toggle on, only the AP course of the two biology courses
    is left. *)
Example filtered_ap_only :
  filtered (mkState {[ 9; 10; 11; 12 ]} "All" "" true) [apBiology; biology]
  = Some [apBiology].
Proof. by vm_compute. Qed.

(** A department choice and a query narrow the list together. *)
Example filtered_department_and_query :
  filtered (mkState {[ 9; 10; 11; 12 ]} "Science" "CELLS" false) sampleCourses
  = Some [biology].
Proof. by vm_compute. Qed.

(** C1: on a canonical course list the filter returns exactly the
    courses that are included, that is grade-match and department-match
    and AP-match and (empty query or text match), each as often and in
    the order it stands in the input; the result is a subsequence of the
    input. *)
Theorem filtered_exactly_included (st : FilterState) (cs : list Course.t) :
  canonical cs →
  filtered st cs = Some (filter (included st) cs) ∧
  (∀ c, c ∈ filter (included st) cs ↔ c ∈ cs ∧ included st c) ∧
  filter (included st) cs `sublist_of` cs.
Proof.
  intros Hcs. split; [by apply filtered_filter |]. split.
  - intros c. rewrite list_elem_of_filter. tauto.
  - apply sublist_filter.
Qed.

Lemma filtered_exactly_included_witness :
  canonical sampleCourses ∧
  filtered (mkState {[ 10 ]} "All" "Bio" false) sampleCourses
    = Some [biology; gardening].
Proof.
  assert (Hc : canonical sampleCourses) by (repeat constructor; by eexists).
  split; [exact Hc |].
  rewrite (proj1 (filtered_exactly_included
                    (mkState {[ 10 ]} "All" "Bio" false) sampleCourses Hc)).
  by vm_compute.
Defined.

(** Every record whose [grades] is absent makes the grade check, and with
    it the whole filter, throw. *)
Lemma absent_grades_throw (st : FilterState) (r : Raw.t)
    (pre post : list Raw.t) :
  Raw.grades r = None → filtered st (normalize (pre ++ r :: post)) = None.
Proof.
  intros Hr. unfold filtered, normalize. rewrite fmap_app, fmap_cons.
  apply arrayFilter_throw. by apply keep_absent.
Qed.

(** C4, as the code has it: a raw record whose [grades] is present and
    empty is rejected by the filter callback under every filter state,
    without an error, and the filter answers as if the record were not
    in the data. *)
Theorem empty_grades_excluded (st : FilterState) (r : Raw.t) :
  Raw.grades r = Some [] →
  keep st (normalize1 r) = Some false ∧
  ∀ pre post,
    filtered st (normalize (pre ++ r :: post))
    = filtered st (normalize (pre ++ post)).
Proof.
  intros Hr.
  assert (Hk : keep st (normalize1 r) = Some false).
  { unfold keep, gradeCheck. simpl. by rewrite Hr. }
  split; [exact Hk |]. intros pre post.
  unfold filtered, normalize. rewrite !fmap_app, fmap_cons.
  by apply arrayFilter_rejected.
Qed.

Lemma empty_grades_excluded_witness :
  Raw.grades (studyHall (Some [])) = Some [] ∧
  filtered initialState (normalize [chemistry; studyHall (Some [])])
  = Some [normalize1 chemistry].
Proof.
  split; [reflexivity |].
  etrans.
  - exact (proj2 (empty_grades_excluded initialState (studyHall (Some []))
                    eq_refl) [chemistry] []).
  - by vm_compute.
Defined.

(** C4 as stated fails when [grades] is absent: the filter throws instead
    of leaving the record out. *)
Lemma absent_grades_crash :
  Raw.grades (studyHall None) = None ∧
  filtered initialState (normalize [chemistry; studyHall None]) = None.
Proof. split; reflexivity. Qed.

(** C7: with no grade selected the filter returns the empty list on every
    canonical course list, whatever the department, query and AP
    settings. *)
Theorem filtered_no_grade_selected (st : FilterState) (cs : list Course.t) :
  canonical cs → selectedGrades st = ∅ → filtered st cs = Some [].
Proof.
  intros Hcs Hsel. rewrite filtered_filter by done. f_equal.
  apply filter_none, Forall_forall. intros c _ [Hg _].
  unfold gradeMatch in Hg. rewrite Hsel in Hg.
  apply Exists_exists in Hg as (g & _ & Hg). set_solver.
Qed.

Lemma filtered_no_grade_selected_witness :
  canonical sampleCourses ∧
  filtered (mkState ∅ "Science" "bio" true) sampleCourses = Some [].
Proof.
  assert (Hc : canonical sampleCourses) by (repeat constructor; by eexists).
  split; [exact Hc |].
  apply (filtered_no_grade_selected (mkState ∅ "Science" "bio" true)
           sampleCourses Hc).
  reflexivity.
Defined.

Lemma gradesInRange_included (c : Course.t) :
  gradesInRange c → hasGrades c ∧ included initialState c.
Proof.
  intros (gs & Hgs & Hne & Hall). split; [by eexists |].
  unfold included, gradeMatch. rewrite Hgs. simpl. repeat split.
  - destruct gs as [| g gs]; [done |].
    apply Exists_cons_hd. apply Forall_cons in Hall as [Hg _].
    clear -Hg. set_unfold. tauto.
  - by left.
  - by left.
  - by left.
Qed.

(** C8: when every course carries a non-empty list of grades drawn from
    9, 10, 11 and 12, the filter in its initial state (all four grades,
    department "All", empty query, AP toggle off) returns the input list
    itself. *)
Theorem filtered_initial_state (cs : list Course.t) :
  Forall gradesInRange cs → filtered initialState cs = Some cs.
Proof.
  intros Hcs.
  rewrite filtered_filter.
  - f_equal. apply filter_all.
    eapply Forall_impl; [exact Hcs |]. intros c Hc.
    by apply gradesInRange_included.
  - eapply Forall_impl; [exact Hcs |]. intros c Hc.
    by apply gradesInRange_included.
Qed.

Lemma filtered_initial_state_witness :
  Forall gradesInRange sampleCourses ∧
  filtered initialState sampleCourses = Some sampleCourses.
Proof.
  assert (H : Forall gradesInRange sampleCourses).
  { repeat constructor; eexists; (split; [reflexivity |]);
      (split; [discriminate |]); repeat constructor; set_solver. }
  split; [exact H | exact (filtered_initial_state sampleCourses H)].
Defined.

Lemma included_mono (S S' : gset Z) (d q : string) (a : bool) (c : Course.t) :
  S ⊆ S' → included (mkState S d q a) c → included (mkState S' d q a) c.
Proof.
  intros HS (Hg & Hrest). split; [| exact Hrest].
  unfold gradeMatch in *. simpl in *.
  eapply Exists_impl; [exact Hg |]. set_solver.
Qed.

(** C10: enlarging the set of selected grades, all else equal, only adds
    courses: a course the callback keeps under [S] it keeps under every
    [S'] that contains [S], and on a canonical list the result for [S] is
    a subsequence of the result for [S']. *)
Theorem filtered_monotone_in_grades (S S' : gset Z) (d q : string) (a : bool)
    (cs : list Course.t) :
  canonical cs → S ⊆ S' →
  (∀ c, keep (mkState S d q a) c = Some true →
        keep (mkState S' d q a) c = Some true) ∧
  ∃ r r', filtered (mkState S d q a) cs = Some r ∧
          filtered (mkState S' d q a) cs = Some r' ∧
          r `sublist_of` r' ∧
          ∀ c, c ∈ r → c ∈ r'.
Proof.
  intros Hcs HS. split.
  - intros c Hk. pose proof (keep_some_hasGrades _ _ _ Hk) as Hc.
    destruct (keep_spec (mkState S d q a) c Hc) as (b & Hb & Hinc).
    destruct (keep_spec (mkState S' d q a) c Hc) as (b' & Hb' & Hinc').
    rewrite Hb'. f_equal. apply Hinc'. apply (included_mono S); [done |].
    apply Hinc. congruence.
  - exists (filter (included (mkState S d q a)) cs),
           (filter (included (mkState S' d q a)) cs).
    assert (Hsub : filter (included (mkState S d q a)) cs
                   `sublist_of` filter (included (mkState S' d q a)) cs).
    { apply filter_mono_sublist. intros c. by apply included_mono. }
    repeat split; [by apply filtered_filter | by apply filtered_filter
                  | exact Hsub |].
    intros c. by apply sublist_subseteq.
Qed.

Lemma filtered_monotone_in_grades_witness :
  canonical sampleCourses ∧ ({[ 9 ]} : gset Z) ⊆ {[ 9; 10 ]} ∧
  filtered (mkState {[ 9 ]} "All" "" false) sampleCourses
    = Some [algebra; biology] ∧
  filtered (mkState {[ 9; 10 ]} "All" "" false) sampleCourses
    = Some [algebra; biology; gardening] ∧
  ∃ r r', filtered (mkState {[ 9 ]} "All" "" false) sampleCourses = Some r ∧
          filtered (mkState {[ 9; 10 ]} "All" "" false) sampleCourses
            = Some r' ∧
          r `sublist_of` r' ∧ ∀ c, c ∈ r → c ∈ r'.
Proof.
  assert (Hc : canonical sampleCourses) by (repeat constructor; by eexists).
  assert (HS : ({[ 9 ]} : gset Z) ⊆ {[ 9; 10 ]}) by set_solver.
  split; [exact Hc |]. split; [exact HS |].
  split; [reflexivity |]. split; [reflexivity |].
  exact (proj2 (filtered_monotone_in_grades {[ 9 ]} {[ 9; 10 ]} "All" "" false
                  sampleCourses Hc HS)).
Defined.

(** ** Grouping stage *)

Lemma getOwn_None (k : string) (m : obj) : getOwn k m = None ↔ k ∉ m.*1.
Proof.
  induction m as [| [k' b] m IH]; simpl.
  - split; [intros _; apply not_elem_of_nil | done].
  - rewrite not_elem_of_cons. destruct (String.eqb k' k) eqn:E.
    + apply String.eqb_eq in E. split; [done | intros [H _]; congruence].
    + apply String.eqb_neq in E. rewrite IH. split; [| tauto].
      intros H. split; [congruence | done].
Qed.

Lemma getOwn_elem (k : string) (b : list Course.t) (m : obj) :
  getOwn k m = Some b → (k, b) ∈ m.
Proof.
  induction m as [| [k' b'] m IH]; simpl; [done |].
  destruct (String.eqb k' k) eqn:E.
  - apply String.eqb_eq in E as ->. intros [= ->]. apply list_elem_of_here.
  - intros H. apply list_elem_of_further. by apply IH.
Qed.

Lemma elem_getOwn (k : string) (b : list Course.t) (m : obj) :
  NoDup m.*1 → (k, b) ∈ m → getOwn k m = Some b.
Proof.
  induction m as [| [k' b'] m IH]; simpl; intros Hnd Hin.
  - by apply elem_of_nil in Hin.
  - apply NoDup_cons in Hnd as [Hk' Hnd].
    apply elem_of_cons in Hin as [[= -> ->] | Hin].
    + by rewrite String.eqb_refl.
    + destruct (String.eqb k' k) eqn:E; [| by apply IH].
      apply String.eqb_eq in E as ->. destruct Hk'.
      apply list_elem_of_fmap. by exists (k, b).
Qed.

Lemma pushOwn_keys (d : string) (c : Course.t) (m : obj) :
  (pushOwn d c m).*1 = m.*1.
Proof.
  induction m as [| [k' b] m IH]; [done |]. cbn [pushOwn].
  destruct (String.eqb k' d); rewrite !fmap_cons; [done | by rewrite IH].
Qed.

Lemma getOwn_pushOwn (k d : string) (c : Course.t) (m : obj) :
  getOwn k (pushOwn d c m)
  = if decide (k = d) then (λ b, b ++ [c]) <$> getOwn d m else getOwn k m.
Proof.
  induction m as [| [k' b] m IH]; simpl; [by case_decide |].
  destruct (String.eqb k' d) eqn:Ed; simpl.
  - apply String.eqb_eq in Ed as ->. case_decide as Hk.
    + subst k. by rewrite String.eqb_refl.
    + rewrite (string_eqb_false d k) by congruence. done.
  - rewrite IH. case_decide as Hk.
    + subst k. by rewrite Ed.
    + done.
Qed.

Lemma getOwn_snoc (k d : string) (v : list Course.t) (m : obj) :
  getOwn k (m ++ [(d, v)])
  = match getOwn k m with
    | Some b => Some b
    | None => if decide (k = d) then Some v else None
    end.
Proof.
  induction m as [| [k' b] m IH]; simpl.
  - case_decide as Hk.
    + subst. by rewrite String.eqb_refl.
    + by rewrite (string_eqb_false d k) by congruence.
  - by destruct (String.eqb k' k).
Qed.

Lemma concat_pushOwn (d : string) (c : Course.t) (m : obj)
    (b : list Course.t) :
  getOwn d m = Some b → concat (pushOwn d c m).*2 ≡ₚ concat m.*2 ++ [c].
Proof.
  induction m as [| [k' b'] m IH]; [done |]. cbn [pushOwn getOwn].
  destruct (String.eqb k' d) eqn:Ed; rewrite !fmap_cons; cbn [concat snd].
  - intros _. rewrite <- !app_assoc. apply Permutation_app_head.
    apply Permutation_app_comm.
  - intros H. rewrite IH by done. by rewrite app_assoc.
Qed.

Lemma concat_snoc {A : Type} (ls : list (list A)) (l : list A) :
  concat (ls ++ [l]) = concat ls ++ l.
Proof. by rewrite concat_app; simpl; rewrite app_nil_r. Qed.

Lemma concat_perm {A : Type} (ls ks : list (list A)) :
  ls ≡ₚ ks → concat ls ≡ₚ concat ks.
Proof.
  induction 1 as [| l ls ks _ IH | l k ls | ls ks js _ IH1 _ IH2]; simpl.
  - done.
  - by rewrite IH.
  - rewrite !app_assoc. apply Permutation_app_tail, Permutation_app_comm.
  - by rewrite IH1.
Qed.

Lemma inherited_spec (k : string) :
  existsb (String.eqb k) objectPrototypeKeys = true ↔ k ∈ objectPrototypeKeys.
Proof.
  rewrite existsb_exists, list_elem_of_In. split.
  - intros (x & Hx & E). by apply String.eqb_eq in E as ->.
  - intros H. exists k. split; [done | apply String.eqb_refl].
Qed.

Lemma bucketOf_snoc (d : string) (p : list Course.t) (c : Course.t) :
  bucketOf d (p ++ [c])
  = bucketOf d p ++ (if decide (Course.department c = d) then [c] else []).
Proof.
  unfold bucketOf. rewrite filter_app. reflexivity.
Qed.

Lemma groupInv_empty : groupInv [] [].
Proof.
  unfold groupInv. split; [constructor |]. split; [done |].
  split; [by intros c ?%elem_of_nil |].
  split; [by intros d ?%elem_of_nil | done].
Qed.

(** A course of a plain department is filed: into its bucket when the
    department has one, into a new bucket at the end otherwise. *)
Lemma groupStep_plain (p : list Course.t) (m : obj) (c : Course.t) :
  groupInv p m → ¬ inheritedDept c →
  ∃ m', groupStep m c = Some m' ∧ groupInv (p ++ [c]) m'.
Proof.
  intros (Hnd & Hbk & Hcov & Hplain & Hcat) Hc.
  unfold groupStep, get, inheritedDept in *.
  destruct (getOwn (Course.department c) m) as [b |] eqn:Hget.
  - eexists. split; [reflexivity |]. unfold groupInv.
    rewrite pushOwn_keys. split; [done |]. split; [| split; [| split]].
    + intros d b'. rewrite getOwn_pushOwn, bucketOf_snoc.
      case_decide as Hd.
      * subst d. rewrite Hget. intros [= <-].
        rewrite decide_True by done.
        destruct (Hbk _ _ Hget) as [-> _]. split; [done |].
        intros H. by apply app_eq_nil in H as [_ ?].
      * intros Hb'. rewrite decide_False by congruence.
        rewrite app_nil_r. by apply Hbk.
    + intros c' Hc'. rewrite getOwn_pushOwn.
      apply elem_of_app in Hc' as [Hc' | Hc'].
      * case_decide as Hd; [| by apply Hcov].
        rewrite Hget. by eexists.
      * apply list_elem_of_singleton in Hc' as ->.
        rewrite decide_True by done. rewrite Hget. by eexists.
    + done.
    + rewrite (concat_pushOwn _ _ _ _ Hget). by rewrite Hcat.
  - destruct (existsb _ objectPrototypeKeys) eqn:Hinh.
    { apply inherited_spec in Hinh. done. }
    assert (Hfresh : Course.department c ∉ m.*1) by by apply getOwn_None.
    assert (Hnone : ∀ c', c' ∈ p → Course.department c' ≠ Course.department c).
    { intros c' Hc' E. destruct (Hcov _ Hc') as [b Hb].
      rewrite E in Hb. congruence. }
    eexists. split; [reflexivity |]. unfold groupInv.
    rewrite !fmap_app. cbn [fmap list_fmap fst snd].
    split; [| split; [| split; [| split]]].
    + apply NoDup_app. split; [done |]. split; [| apply NoDup_singleton].
      intros d Hd Hd'. apply list_elem_of_singleton in Hd' as ->. done.
    + intros d b. rewrite getOwn_snoc, bucketOf_snoc.
      destruct (getOwn d m) as [b0 |] eqn:Hd.
      * intros [= <-]. rewrite decide_False.
        { rewrite app_nil_r. by apply Hbk. }
        intros E. rewrite <- E in Hd. congruence.
      * case_decide as E; [| done]. intros [= <-]. subst d.
        rewrite decide_True by done. split; [| done].
        unfold bucketOf. rewrite filter_none; [done |].
        apply Forall_forall. intros c' Hc'. by apply Hnone.
    + intros c' Hc'. rewrite getOwn_snoc.
      apply elem_of_app in Hc' as [Hc' | Hc'].
      * destruct (Hcov _ Hc') as [b ->]. by eexists.
      * apply list_elem_of_singleton in Hc' as ->. rewrite Hget.
        rewrite decide_True by done. by eexists.
    + intros d Hd. apply elem_of_app in Hd as [Hd | Hd]; [by apply Hplain |].
      apply list_elem_of_singleton in Hd as ->.
      intros Hin. apply inherited_spec in Hin. congruence.
    + rewrite concat_snoc. by rewrite Hcat.
Qed.

(** A course whose department is an inherited name finds a value that
    is neither missing nor an array, and the [push] call throws. *)
Lemma groupStep_inherited (p : list Course.t) (m : obj) (c : Course.t) :
  groupInv p m → inheritedDept c → groupStep m c = None.
Proof.
  intros (_ & _ & _ & Hplain & _) Hc. unfold groupStep, get, inheritedDept in *.
  destruct (getOwn (Course.department c) m) as [b |] eqn:Hget.
  - apply getOwn_elem in Hget. destruct (Hplain (Course.department c)); [| done].
    apply list_elem_of_fmap. by exists (Course.department c, b).
  - by rewrite (proj2 (inherited_spec _) Hc).
Qed.

Lemma forEach_plain (l p : list Course.t) (m : obj) :
  groupInv p m → plainDepartments l →
  ∃ m', forEach groupStep m l = Some m' ∧ groupInv (p ++ l) m'.
Proof.
  revert p m. induction l as [| c l IH]; intros p m Hinv Hl; simpl.
  - exists m. by rewrite app_nil_r.
  - apply Forall_cons in Hl as [Hc Hl].
    destruct (groupStep_plain p m c Hinv Hc) as (m1 & -> & Hinv1). simpl.
    destruct (IH _ _ Hinv1 Hl) as (m' & Hm' & Hinv').
    exists m'. split; [done |]. by rewrite <- app_assoc in Hinv'.
Qed.

Lemma forEach_inherited (l p : list Course.t) (m : obj) :
  groupInv p m → Exists inheritedDept l → forEach groupStep m l = None.
Proof.
  revert p m. induction l as [| c l IH]; intros p m Hinv Hl; simpl.
  - by apply Exists_nil in Hl.
  - destruct (decide (inheritedDept c)) as [Hc | Hc].
    + by rewrite (groupStep_inherited p m c).
    + destruct (groupStep_plain p m c Hinv Hc) as (m1 & -> & Hinv1). simpl.
      apply Exists_cons in Hl as [Hl | Hl]; [done |]. by apply (IH (p ++ [c])).
Qed.

(** *** Sorting *)

Lemma insertBy_perm {A : Type} (cmp : A → A → Z) (x : A) (l : list A) :
  insertBy cmp x l ≡ₚ x :: l.
Proof.
  induction l as [| y l IH]; simpl; [done |].
  destruct (cmp x y <=? 0); [done |].
  rewrite IH. apply Permutation_swap.
Qed.

Lemma sortBy_perm {A : Type} (cmp : A → A → Z) (l : list A) :
  sortBy cmp l ≡ₚ l.
Proof.
  induction l as [| x l IH]; simpl; [done |].
  by rewrite insertBy_perm, IH.
Qed.

Section sorted.
Context {A : Type} (cmp : A → A → Z).
Hypothesis cmp_total : ∀ a b, cmp a b ≤ 0 ∨ cmp b a ≤ 0.

Lemma insertBy_HdRel (x y : A) (l : list A) :
  cmp y x ≤ 0 → HdRel (λ a b, cmp a b ≤ 0) y l →
  HdRel (λ a b, cmp a b ≤ 0) y (insertBy cmp x l).
Proof.
  intros Hyx Hl. destruct l as [| z l]; simpl.
  - by constructor.
  - destruct (cmp x z <=? 0); constructor; [done |].
    by inversion Hl.
Qed.

Lemma insertBy_Sorted (x : A) (l : list A) :
  Sorted (λ a b, cmp a b ≤ 0) l → Sorted (λ a b, cmp a b ≤ 0) (insertBy cmp x l).
Proof.
  induction 1 as [| y l Hl IH Hy]; simpl.
  - repeat constructor.
  - destruct (cmp x y <=? 0) eqn:E.
    + apply Z.leb_le in E. repeat constructor; done.
    + apply Z.leb_gt in E. constructor; [done |].
      apply insertBy_HdRel; [| done].
      destruct (cmp_total x y); [lia | done].
Qed.

Lemma sortBy_Sorted (l : list A) : Sorted (λ a b, cmp a b ≤ 0) (sortBy cmp l).
Proof.
  induction l as [| x l IH]; simpl; [constructor |].
  by apply insertBy_Sorted.
Qed.

End sorted.

Lemma filter_split_perm {A : Type} (f : A → bool) (l : list A) :
  List.filter f l ++ List.filter (λ x, negb (f x)) l ≡ₚ l.
Proof.
  induction l as [| x l IH]; simpl; [done |].
  destruct (f x); simpl.
  - by rewrite IH.
  - by rewrite <- Permutation_middle, IH.
Qed.

Lemma entries_perm (m : obj) : entries m ≡ₚ m.
Proof.
  unfold entries. rewrite sortBy_perm. apply filter_split_perm.
Qed.

(** *** The memo as a whole *)

(** On departments that collide with no inherited name, and with a
    consistent collation, [grouped] returns a grouping of its input. *)
Lemma grouped_plain (cmp : string → string → Z) (cs : list Course.t) :
  consistent cmp → plainDepartments cs →
  ∃ gs, grouped cmp cs = Some gs ∧ isGrouping cmp cs gs.
Proof.
  intros [Htot Htrans] Hcs. unfold grouped.
  destruct (forEach_plain cs [] [] groupInv_empty Hcs)
    as (m & -> & Hnd & Hbk & Hcov & _ & Hcat).
  simpl in *. eexists. split; [reflexivity |].
  set (gs := sortBy _ _).
  assert (Hperm : gs ≡ₚ m).
  { unfold gs. by rewrite sortBy_perm, entries_perm. }
  unfold isGrouping. split; [by rewrite Hperm |].
  split; [| split; [| split]].
  - intros d b Hin. rewrite Hperm in Hin. by apply Hbk, elem_getOwn.
  - intros c Hc. destruct (Hcov c Hc) as [b Hb]. apply getOwn_elem in Hb.
    rewrite Hperm. apply list_elem_of_fmap. by exists (Course.department c, b).
  - rewrite <- Hcat. apply concat_perm. by rewrite Hperm.
  - assert (Transitive (λ a b : string * list Course.t, collates cmp a.1 b.1)).
    { intros a b c. apply Htrans. }
    apply Sorted_StronglySorted; [done |].
    apply (sortBy_Sorted (λ a b : string * list Course.t, cmp a.1 b.1)).
    intros a b. apply Htot.
Qed.

Lemma grouped_plain_total (cmp : string → string → Z) (cs : list Course.t) :
  plainDepartments cs → is_Some (grouped cmp cs).
Proof.
  intros Hcs. unfold grouped.
  destruct (forEach_plain cs [] [] groupInv_empty Hcs) as (m & -> & _).
  by eexists.
Qed.

(** [grouped] throws exactly when some department is an inherited name. *)
Lemma grouped_throws (cmp : string → string → Z) (cs : list Course.t) :
  grouped cmp cs = None ↔ Exists inheritedDept cs.
Proof.
  split.
  - intros Hnone.
    destruct (decide (Exists inheritedDept cs)) as [| Hno]; [done |].
    apply not_Exists_Forall in Hno; [| apply _].
    destruct (grouped_plain_total cmp cs Hno) as [gs Hgs]. congruence.
  - intros Hex. unfold grouped.
    by rewrite (forEach_inherited cs [] [] groupInv_empty Hex).
Qed.

(** *** A sample collation *)

Lemma N_of_ascii_inj (x y : ascii) : N_of_ascii x = N_of_ascii y → x = y.
Proof.
  intros H. rewrite <- (ascii_N_embedding x), <- (ascii_N_embedding y).
  by rewrite H.
Qed.

Lemma byteCompare_total (a b : string) :
  byteCompare a b ≤ 0 ∨ byteCompare b a ≤ 0.
Proof.
  revert b. induction a as [| x a IH]; intros [| y b]; simpl; try lia.
  destruct (Ascii.eqb x y) eqn:E.
  - apply Ascii.eqb_eq in E as ->. rewrite Ascii.eqb_refl. apply IH.
  - rewrite Ascii.eqb_sym, E. lia.
Qed.

Lemma byteCompare_trans (a b c : string) :
  byteCompare a b ≤ 0 → byteCompare b c ≤ 0 → byteCompare a c ≤ 0.
Proof.
  revert b c.
  induction a as [| x a IH]; intros [| y b] [| z c]; simpl; try lia.
  destruct (Ascii.eqb x y) eqn:Exy, (Ascii.eqb y z) eqn:Eyz,
           (Ascii.eqb x z) eqn:Exz;
    rewrite ?Ascii.eqb_eq, ?Ascii.eqb_neq in *; subst; try done; try lia.
  - apply IH.
  - intros H1 H2. destruct Exy. apply N_of_ascii_inj. lia.
Qed.

Lemma byteCompare_consistent : consistent byteCompare.
Proof.
  split.
  - intros a b. apply byteCompare_total.
  - intros a b c. apply byteCompare_trans.
Qed.

(** C3: a course list with a department named like an inherited
    property, here "constructor", passes the filter and then makes the
    grouping stage throw, under every collation, where the contract
    promises one pair per department. *)
Theorem grouped_inherited_name_throws (cmp : string → string → Z) :
  filtered initialState (normalize inheritedRaws)
    = Some (normalize inheritedRaws) ∧
  Course.department <$> normalize inheritedRaws = ["Science"; "constructor"] ∧
  grouped cmp (normalize inheritedRaws) = None.
Proof.
  split; [by vm_compute |]. split; [reflexivity |].
  apply grouped_throws. apply Exists_cons_tl, Exists_cons_hd.
  unfold inheritedDept. simpl. apply list_elem_of_here.
Qed.

(** X1: away from inherited names the grouping stage meets its contract: for
    a consistent collation and a course list none of whose departments
    is an inherited property name, it returns one pair per department
    that occurs, the names pairwise distinct, each pair holding exactly
    the courses of its department in their input order, the pairs
    together holding every course once, in collation order of the
    names; the empty list gives the empty sequence. *)
Theorem grouped_partitions (cmp : string → string → Z) (cs : list Course.t) :
  consistent cmp → plainDepartments cs →
  (∃ gs, grouped cmp cs = Some gs ∧ isGrouping cmp cs gs) ∧
  grouped cmp [] = Some [].
Proof.
  intros Hcmp Hcs. split; [by apply grouped_plain | reflexivity].
Qed.

Lemma grouped_partitions_witness :
  consistent byteCompare ∧ plainDepartments sampleCourses ∧
  grouped byteCompare sampleCourses
    = Some [ ("Mathematics", [algebra]); ("Other CTE", [gardening]);
             ("Science", [apBiology; biology]) ] ∧
  ∃ gs, grouped byteCompare sampleCourses = Some gs ∧
        isGrouping byteCompare sampleCourses gs.
Proof.
  assert (Hp : plainDepartments sampleCourses).
  { apply (bool_decide_unpack _). by vm_compute. }
  split; [exact byteCompare_consistent |]. split; [exact Hp |].
  split; [by vm_compute |].
  exact (proj1 (grouped_partitions byteCompare sampleCourses
                  byteCompare_consistent Hp)).
Defined.

(** X2: the grouping stage throws exactly on the lists that hold a course
    whose department is an inherited property name. *)
Theorem grouped_throws_iff (cmp : string → string → Z) (cs : list Course.t) :
  grouped cmp cs = None ↔
  ∃ c, c ∈ cs ∧ Course.department c ∈ objectPrototypeKeys.
Proof.
  rewrite grouped_throws, Exists_exists. reflexivity.
Qed.

(** * Further properties of the component *)

(** What [grouped] returns is a grouping whatever the collation does:
    only the order of the pairs depends on it. *)
Lemma grouped_some (cmp : string → string → Z) (cs : list Course.t)
    (gs : list (string * list Course.t)) :
  grouped cmp cs = Some gs →
  NoDup gs.*1 ∧
  (∀ d b, (d, b) ∈ gs → b = bucketOf d cs ∧ b ≠ []) ∧
  (∀ c, c ∈ cs → Course.department c ∈ gs.*1) ∧
  concat gs.*2 ≡ₚ cs.
Proof.
  intros Hgs.
  assert (Hcs : plainDepartments cs).
  { apply Forall_forall. intros c Hc Hinh.
    assert (Hnone : grouped cmp cs = None).
    { apply grouped_throws, Exists_exists. by exists c. }
    congruence. }
  unfold grouped in Hgs.
  destruct (forEach_plain cs [] [] groupInv_empty Hcs)
    as (m & Hm & Hnd & Hbk & Hcov & _ & Hcat).
  rewrite Hm in Hgs. simpl in *. injection Hgs as <-.
  set (gs := sortBy _ _).
  assert (Hperm : gs ≡ₚ m).
  { unfold gs. by rewrite sortBy_perm, entries_perm. }
  split; [by rewrite Hperm |]. split; [| split].
  - intros d b Hin. rewrite Hperm in Hin. by apply Hbk, elem_getOwn.
  - intros c Hc. destruct (Hcov c Hc) as [b Hb]. apply getOwn_elem in Hb.
    rewrite Hperm. apply list_elem_of_fmap. by exists (Course.department c, b).
  - rewrite <- Hcat. apply concat_perm. by rewrite Hperm.
Qed.


(** ** The filter as an operation on lists *)

Lemma arrayFilter_cons_Some {A : Type} (f : A → option bool) (x : A)
    (l r : list A) :
  arrayFilter f (x :: l) = Some r →
  ∃ b r0, f x = Some b ∧ arrayFilter f l = Some r0 ∧
          r = if b then x :: r0 else r0.
Proof.
  simpl. destruct (f x) as [b |]; [| done]. simpl.
  destruct (arrayFilter f l) as [r0 |]; [| done]. simpl.
  intros [= <-]. by exists b, r0.
Qed.

Section array_filter_algebra.
Context {A : Type} (f : A → option bool).

Lemma arrayFilter_sublist (l r : list A) :
  arrayFilter f l = Some r → r `sublist_of` l.
Proof.
  revert r. induction l as [| x l IH]; intros r H.
  - by injection H as <-.
  - apply arrayFilter_cons_Some in H as (b & r0 & _ & Hr0 & ->).
    destruct b; constructor; by apply IH.
Qed.

Lemma arrayFilter_kept (l r : list A) :
  arrayFilter f l = Some r → Forall (λ x, f x = Some true) r.
Proof.
  revert r. induction l as [| x l IH]; intros r H.
  - injection H as <-. constructor.
  - apply arrayFilter_cons_Some in H as (b & r0 & Hb & Hr0 & ->).
    destruct b; [constructor |]; auto.
Qed.

Lemma arrayFilter_all_kept (r : list A) :
  Forall (λ x, f x = Some true) r → arrayFilter f r = Some r.
Proof.
  induction 1 as [| x r Hx _ IH]; [done |]. simpl. by rewrite Hx, IH.
Qed.

Lemma arrayFilter_None (l : list A) :
  arrayFilter f l = None ↔ Exists (λ x, f x = None) l.
Proof.
  induction l as [| x l IH]; simpl.
  - rewrite Exists_nil. split; [discriminate | tauto].
  - rewrite Exists_cons, <- IH. destruct (f x) as [b |]; simpl.
    + destruct (arrayFilter f l); simpl; split;
        try discriminate; try tauto.
      intros [H | H]; discriminate H.
    + split; [by left | done].
Qed.

Lemma arrayFilter_ext (g : A → option bool) (l : list A) :
  (∀ x, f x = g x) → arrayFilter f l = arrayFilter g l.
Proof.
  intros Hfg. induction l as [| x l IH]; [done |].
  simpl. by rewrite Hfg, IH.
Qed.

(** A callback that throws no more often gives a result whenever the
    other one does. *)
Lemma arrayFilter_is_Some (g : A → option bool) (l : list A) :
  (∀ x, is_Some (f x) → is_Some (g x)) →
  is_Some (arrayFilter f l) → is_Some (arrayFilter g l).
Proof.
  intros Hfg. induction l as [| x l IH]; [done |]. simpl.
  destruct (f x) as [b |] eqn:Hb; simpl; [| by intros [? ?]].
  destruct (Hfg x) as [b' ->]; [by eexists |]. simpl.
  destruct (arrayFilter f l); simpl; [| by intros [? ?]]. intros _.
  destruct IH as [r' ->]; [by eexists |]. by eexists.
Qed.

(** A callback that keeps whatever the other keeps gives a longer
    result. *)
Lemma arrayFilter_mono (g : A → option bool) (l r r' : list A) :
  (∀ x, f x = Some true → g x = Some true) →
  arrayFilter f l = Some r → arrayFilter g l = Some r' →
  r `sublist_of` r'.
Proof.
  intros Hfg. revert r r'. induction l as [| x l IH]; intros r r' Hr Hr'.
  - injection Hr as <-. apply sublist_nil_l.
  - apply arrayFilter_cons_Some in Hr as (b & r0 & Hb & Hr0 & ->).
    apply arrayFilter_cons_Some in Hr' as (b' & r0' & Hb' & Hr0' & ->).
    specialize (IH _ _ Hr0 Hr0'). destruct b.
    + rewrite (Hfg _ Hb) in Hb'. injection Hb' as <-. by constructor.
    + destruct b'; [by constructor | done].
Qed.

End array_filter_algebra.

(** A second callback that keeps what the first keeps and a test [P]
    passes returns the first result filtered by [P]. *)
Lemma arrayFilter_refine {A : Type} (f g : A → option bool) (P : A → Prop)
    `{!∀ x, Decision (P x)} (l r : list A) :
  (∀ x b, f x = Some b → ∃ b', g x = Some b' ∧ (b' = true ↔ b = true ∧ P x)) →
  arrayFilter f l = Some r → arrayFilter g l = Some (filter P r).
Proof.
  intros Hfg. revert r. induction l as [| x l IH]; intros r Hr.
  - by injection Hr as <-.
  - apply arrayFilter_cons_Some in Hr as (b & r0 & Hb & Hr0 & ->).
    destruct (Hfg x b Hb) as (b' & Hb' & Hiff). simpl.
    rewrite Hb', (IH _ Hr0). simpl. f_equal.
    destruct b.
    + rewrite filter_cons. destruct b'.
      * rewrite decide_True; [done |]. by apply Hiff.
      * rewrite decide_False; [done |]. intros HP.
        discriminate (proj2 Hiff (conj eq_refl HP)).
    + destruct b'; [| done]. destruct (proj1 Hiff eq_refl) as [Hf _].
      discriminate Hf.
Qed.

Lemma keep_None (st : FilterState) (c : Course.t) :
  keep st c = None ↔ Course.grades c = None.
Proof.
  split; [| apply keep_absent].
  destruct (Course.grades c) eqn:E; [| done]. intros H.
  destruct (keep_spec st c) as (b & Hb & _); [by eexists | congruence].
Qed.

Lemma keep_is_Some (st st' : FilterState) (c : Course.t) :
  is_Some (keep st c) → is_Some (keep st' c).
Proof.
  intros [b Hb]. apply keep_some_hasGrades in Hb.
  destruct (keep_spec st' c Hb) as (b' & -> & _). by eexists.
Qed.

Lemma keep_true (st : FilterState) (c : Course.t) :
  keep st c = Some true ↔ hasGrades c ∧ included st c.
Proof.
  split.
  - intros H. pose proof (keep_some_hasGrades _ _ _ H) as Hc.
    split; [done |]. destruct (keep_spec st c Hc) as (b & Hb & Hinc).
    apply Hinc. congruence.
  - intros [Hc Hinc]. destruct (keep_spec st c Hc) as (b & -> & Hb).
    f_equal. by apply Hb.
Qed.

(** X3: the filter throws exactly when some course of its input carries
    no [grades] array, whatever the filter state. *)
Theorem filtered_throws_iff (st : FilterState) (cs : list Course.t) :
  filtered st cs = None ↔ ∃ c, c ∈ cs ∧ Course.grades c = None.
Proof.
  unfold filtered. rewrite arrayFilter_None, Exists_exists.
  split; intros (c & Hc & H); exists c; (split; [done |]).
  - by apply (proj1 (keep_None st c)).
  - by apply (proj2 (keep_None st c)).
Qed.

(** X4: filtering is idempotent: a list the filter returned passes the
    same filter unchanged. *)
Theorem filtered_idempotent (st : FilterState) (cs r : list Course.t) :
  filtered st cs = Some r → filtered st r = Some r.
Proof.
  unfold filtered. intros H.
  by apply arrayFilter_all_kept, (arrayFilter_kept _ cs).
Qed.

Lemma filtered_idempotent_witness :
  filtered (mkState {[ 10 ]} "All" "bio" false) sampleCourses
    = Some [biology; gardening] ∧
  filtered (mkState {[ 10 ]} "All" "bio" false) [biology; gardening]
    = Some [biology; gardening].
Proof.
  assert (H : filtered (mkState {[ 10 ]} "All" "bio" false) sampleCourses
              = Some [biology; gardening]) by by vm_compute.
  split; [exact H |].
  exact (filtered_idempotent _ sampleCourses _ H).
Defined.

(** ** The search box *)



Lemma toLowerCase_empty (s : string) : toLowerCase s = "" ↔ s = "".
Proof. destruct s; simpl; split; intros H; done. Qed.




Lemma truthy_toLowerCase (q q' : string) :
  toLowerCase q = toLowerCase q' → truthy q = truthy q'.
Proof.
  intros H. destruct q, q'; try done; discriminate H.
Qed.

Lemma keep_query_case (S : gset Z) (d q q' : string) (a : bool)
    (c : Course.t) :
  toLowerCase q = toLowerCase q' →
  keep (mkState S d q a) c = keep (mkState S d q' a) c.
Proof.
  intros H. unfold keep, textMatch. simpl.
  by rewrite H, (truthy_toLowerCase q q' H).
Qed.

(** X5: the search ignores the case of the query: two queries with the
    same lower-case form give the same filter result (or the same
    failure), all else equal. *)
Theorem filtered_query_case (S : gset Z) (d q q' : string) (a : bool)
    (cs : list Course.t) :
  toLowerCase q = toLowerCase q' →
  filtered (mkState S d q a) cs = filtered (mkState S d q' a) cs.
Proof.
  intros H. unfold filtered. apply arrayFilter_ext.
  intros c. by apply keep_query_case.
Qed.

Lemma filtered_query_case_witness :
  toLowerCase "BioLogy" = toLowerCase "bIOLOGY" ∧
  filtered (mkState {[ 9; 10 ]} "All" "BioLogy" false) sampleCourses
  = filtered (mkState {[ 9; 10 ]} "All" "bIOLOGY" false) sampleCourses.
Proof.
  split; [reflexivity |].
  exact (filtered_query_case {[ 9; 10 ]} "All" "BioLogy" "bIOLOGY" false
           sampleCourses eq_refl).
Defined.




(** ** The department select and the AP button *)

Lemma keep_refines (st st' : FilterState) (P : Course.t → Prop)
    (c : Course.t) (b : bool) :
  (included st' c ↔ included st c ∧ P c) →
  keep st c = Some b →
  ∃ b', keep st' c = Some b' ∧ (b' = true ↔ b = true ∧ P c).
Proof.
  intros Hinc Hb. pose proof (keep_some_hasGrades _ _ _ Hb) as Hc.
  destruct (keep_spec st c Hc) as (b0 & Hb0 & Hb0inc).
  destruct (keep_spec st' c Hc) as (b' & Hb' & Hb'inc).
  exists b'. split; [done |].
  assert (b0 = b) as -> by congruence.
  rewrite Hb'inc, Hb0inc. exact Hinc.
Qed.

(** X7: choosing a department other than "All" shows the bucket of that
    department: the filter then returns the courses of that department
    from the list it returns under "All", in the same order, which is
    the list the grouping stage files under that department's name. *)
Theorem filtered_department_bucket (S : gset Z) (d q : string) (a : bool)
    (cs r : list Course.t) :
  d ≠ "All" →
  filtered (mkState S "All" q a) cs = Some r →
  filtered (mkState S d q a) cs = Some (bucketOf d r) ∧
  ∀ cmp gs b, grouped cmp r = Some gs → (d, b) ∈ gs →
              filtered (mkState S d q a) cs = Some b.
Proof.
  intros Hd Hr.
  assert (Hb : filtered (mkState S d q a) cs = Some (bucketOf d r)).
  { unfold filtered, bucketOf in *.
    eapply arrayFilter_refine; [| exact Hr]. intros c b.
    apply (keep_refines (mkState S "All" q a) (mkState S d q a)
             (λ c, Course.department c = d)).
    unfold included. simpl. intuition congruence. }
  split; [exact Hb |]. intros cmp gs b Hgs Hin. rewrite Hb. f_equal.
  destruct (grouped_some cmp r gs Hgs) as (_ & Hbk & _).
  by destruct (Hbk d b Hin) as [-> _].
Qed.

Lemma filtered_department_bucket_witness :
  "Science" ≠ "All" ∧
  filtered (mkState {[ 9; 10; 11; 12 ]} "All" "" false) sampleCourses
    = Some sampleCourses ∧
  filtered (mkState {[ 9; 10; 11; 12 ]} "Science" "" false) sampleCourses
    = Some [apBiology; biology].
Proof.
  assert (Hd : "Science" ≠ "All") by discriminate.
  assert (Hr : filtered (mkState {[ 9; 10; 11; 12 ]} "All" "" false)
                 sampleCourses = Some sampleCourses) by by vm_compute.
  split; [exact Hd |]. split; [exact Hr |].
  exact (proj1 (filtered_department_bucket {[ 9; 10; 11; 12 ]} "Science" ""
                  false sampleCourses sampleCourses Hd Hr)).
Defined.

(** X8: switching the AP button on keeps, of the list returned with the
    button off, exactly the courses flagged [ap], in the same order. *)
Theorem filtered_ap_toggle (S : gset Z) (d q : string)
    (cs r : list Course.t) :
  filtered (mkState S d q false) cs = Some r →
  filtered (mkState S d q true) cs
  = Some (filter (λ c, Course.ap c = true) r).
Proof.
  intros Hr. unfold filtered in *.
  eapply arrayFilter_refine; [| exact Hr]. intros c b.
  apply (keep_refines (mkState S d q false) (mkState S d q true)
           (λ c, Course.ap c = true)).
  unfold included. simpl.
  destruct (Course.ap c); intuition congruence.
Qed.

Lemma filtered_ap_toggle_witness :
  filtered (mkState {[ 11 ]} "All" "" false) sampleCourses
    = Some [apBiology; gardening] ∧
  filtered (mkState {[ 11 ]} "All" "" true) sampleCourses = Some [apBiology].
Proof.
  assert (Hr : filtered (mkState {[ 11 ]} "All" "" false) sampleCourses
               = Some [apBiology; gardening]) by by vm_compute.
  split; [exact Hr |].
  exact (filtered_ap_toggle {[ 11 ]} "All" "" sampleCourses _ Hr).
Defined.

(** ** The grade buttons *)

(** X9: a grade button flips its own grade and no other, and a second
    click on it restores the selection. *)
Theorem toggleGrade_flips (g : Z) (S : gset Z) :
  (g ∈ toggleGrade g S ↔ g ∉ S) ∧
  (∀ h, h ≠ g → (h ∈ toggleGrade g S ↔ h ∈ S)) ∧
  toggleGrade g (toggleGrade g S) = S.
Proof.
  assert (Hself : ∀ T, g ∈ toggleGrade g T ↔ g ∉ T).
  { intros T. unfold toggleGrade. case_decide; set_unfold; intuition congruence. }
  assert (Hother : ∀ T h, h ≠ g → (h ∈ toggleGrade g T ↔ h ∈ T)).
  { intros T h Hh. unfold toggleGrade. case_decide; set_unfold; intuition congruence. }
  split; [apply Hself |]. split; [apply Hother |].
  apply set_eq. intros h. destruct (decide (h = g)) as [-> | Hh].
  - rewrite Hself, Hself. destruct (decide (g ∈ S)); tauto.
  - by rewrite !Hother.
Qed.

(** X10: switching a grade on only adds courses and switching it off
    only removes some: when the filter returns a list, it returns one
    after the click too, and of the two lists the one with fewer grades
    selected is a subsequence of the other. *)
Theorem filtered_after_grade_click (g : Z) (S : gset Z) (d q : string)
    (a : bool) (cs r : list Course.t) :
  filtered (mkState S d q a) cs = Some r →
  ∃ r', filtered (mkState (toggleGrade g S) d q a) cs = Some r' ∧
        (g ∉ S → r `sublist_of` r') ∧ (g ∈ S → r' `sublist_of` r).
Proof.
  intros Hr. unfold filtered in *.
  destruct (arrayFilter_is_Some (keep (mkState S d q a))
              (keep (mkState (toggleGrade g S) d q a)) cs) as [r' Hr'].
  - intros c. apply keep_is_Some.
  - by eexists.
  - exists r'. split; [done |]. split; intros Hg.
    + eapply (arrayFilter_mono (keep (mkState S d q a))); [| done | done].
      intros c Hc. apply keep_true in Hc as [Hc Hinc]. apply keep_true.
      split; [done |]. apply (included_mono S); [| done].
      unfold toggleGrade. rewrite decide_False by done.
      set_unfold. intuition.
    + eapply (arrayFilter_mono (keep (mkState (toggleGrade g S) d q a)));
        [| done | done].
      intros c Hc. apply keep_true in Hc as [Hc Hinc]. apply keep_true.
      split; [done |]. apply (included_mono (toggleGrade g S)); [| done].
      unfold toggleGrade. rewrite decide_True by done.
      set_unfold. intuition.
Qed.

Lemma filtered_after_grade_click_witness :
  filtered (mkState {[ 9; 11 ]} "All" "" false) sampleCourses
    = Some [apBiology; algebra; biology; gardening] ∧
  filtered (mkState (toggleGrade 11 {[ 9; 11 ]}) "All" "" false) sampleCourses
    = Some [algebra; biology] ∧
  ∃ r', filtered (mkState (toggleGrade 11 {[ 9; 11 ]}) "All" "" false)
          sampleCourses = Some r' ∧
        (11 ∉ ({[ 9; 11 ]} : gset Z) →
         [apBiology; algebra; biology; gardening] `sublist_of` r') ∧
        (11 ∈ ({[ 9; 11 ]} : gset Z) →
         r' `sublist_of` [apBiology; algebra; biology; gardening]).
Proof.
  assert (Hr : filtered (mkState {[ 9; 11 ]} "All" "" false) sampleCourses
               = Some [apBiology; algebra; biology; gardening])
    by by vm_compute.
  split; [exact Hr |]. split; [by vm_compute |].
  exact (filtered_after_grade_click 11 {[ 9; 11 ]} "All" "" false
           sampleCourses _ Hr).
Defined.

(** ** The department list *)

Lemma existsb_eqb_elem (x : string) (s : list string) :
  existsb (String.eqb x) s = true ↔ x ∈ s.
Proof.
  rewrite existsb_exists, list_elem_of_In. split.
  - intros (y & Hy & E). by apply String.eqb_eq in E as ->.
  - intros H. exists x. split; [done | apply String.eqb_refl].
Qed.

Lemma setAdd_elem (s : list string) (x y : string) :
  y ∈ setAdd s x ↔ y ∈ s ∨ y = x.
Proof.
  unfold setAdd. destruct (existsb _ s) eqn:E.
  - apply existsb_eqb_elem in E. split; [by left |]. by intros [? | ->].
  - rewrite elem_of_app, list_elem_of_singleton. tauto.
Qed.

Lemma setAdd_NoDup (s : list string) (x : string) :
  NoDup s → NoDup (setAdd s x).
Proof.
  intros Hs. unfold setAdd. destruct (existsb _ s) eqn:E; [done |].
  apply NoDup_app. split; [done |]. split; [| apply NoDup_singleton].
  intros y Hy Hy'. apply list_elem_of_singleton in Hy' as ->.
  apply existsb_eqb_elem in Hy. congruence.
Qed.

Lemma fold_setAdd_elem (xs acc : list string) (y : string) :
  y ∈ fold_left setAdd xs acc ↔ y ∈ acc ∨ y ∈ xs.
Proof.
  revert acc. induction xs as [| x xs IH]; intros acc; simpl.
  - rewrite elem_of_nil. tauto.
  - rewrite IH, setAdd_elem, elem_of_cons. tauto.
Qed.

Lemma fold_setAdd_NoDup (xs acc : list string) :
  NoDup acc → NoDup (fold_left setAdd xs acc).
Proof.
  revert acc. induction xs as [| x xs IH]; intros acc Hacc; simpl; [done |].
  by apply IH, setAdd_NoDup.
Qed.

Lemma newSet_spec (xs : list string) :
  NoDup (newSet xs) ∧ ∀ y, y ∈ newSet xs ↔ y ∈ xs.
Proof.
  unfold newSet. split.
  - apply fold_setAdd_NoDup, NoDup_nil_2.
  - intros y. rewrite fold_setAdd_elem, elem_of_nil. tauto.
Qed.

Lemma byteCompare_zero (a b : string) : byteCompare a b = 0 → a = b.
Proof.
  revert b. induction a as [| x a IH]; intros [| y b]; simpl; try done.
  destruct (Ascii.eqb x y) eqn:E.
  - apply Ascii.eqb_eq in E as ->. intros H. f_equal. by apply IH.
  - apply Ascii.eqb_neq in E. intros H. destruct E.
    apply N_of_ascii_inj. lia.
Qed.

Lemma byteCompare_antisym (a b : string) :
  byteCompare a b ≤ 0 → byteCompare b a ≤ 0 → a = b.
Proof.
  revert b. induction a as [| x a IH]; intros [| y b]; simpl; try lia.
  - done.
  - destruct (Ascii.eqb x y) eqn:E.
    + apply Ascii.eqb_eq in E as ->. rewrite Ascii.eqb_refl.
      intros H1 H2. f_equal. by apply IH.
    + rewrite Ascii.eqb_sym, E. apply Ascii.eqb_neq in E.
      intros H1 H2. destruct E. apply N_of_ascii_inj. lia.
Qed.

#[local] Instance collates_byteCompare_trans :
  Transitive (collates byteCompare).
Proof. intros a b c. apply byteCompare_trans. Qed.

#[local] Instance collates_byteCompare_antisym :
  AntiSymm (=) (collates byteCompare).
Proof. intros a b. apply byteCompare_antisym. Qed.

Lemma StronglySorted_strict (l : list string) :
  StronglySorted (collates byteCompare) l → NoDup l →
  StronglySorted (λ a b, byteCompare a b < 0) l.
Proof.
  induction 1 as [| x l Hl IH Hx]; intros Hnd; [constructor |].
  apply NoDup_cons in Hnd as [Hxl Hnd]. constructor; [by apply IH |].
  apply Forall_forall. intros y Hy.
  pose proof (proj1 (Forall_forall _ _) Hx y Hy) as Hxy. unfold collates in Hxy.
  destruct (decide (byteCompare x y = 0)) as [E | E]; [| lia].
  apply byteCompare_zero in E as ->. done.
Qed.

Lemma DEPARTMENTS_elem (cs : list Course.t) (d : string) :
  d ∈ DEPARTMENTS cs ↔ ∃ c, c ∈ cs ∧ Course.department c = d.
Proof.
  unfold DEPARTMENTS. rewrite sortBy_perm.
  rewrite (proj2 (newSet_spec _)), list_elem_of_fmap.
  split; intros (c & H1 & H2); exists c; by split.
Qed.

Lemma DEPARTMENTS_sorted (cs : list Course.t) :
  StronglySorted (collates byteCompare) (DEPARTMENTS cs) ∧
  NoDup (DEPARTMENTS cs).
Proof.
  unfold DEPARTMENTS. split.
  - apply Sorted_StronglySorted; [apply _ |].
    apply (sortBy_Sorted byteCompare), byteCompare_total.
  - rewrite sortBy_perm. apply newSet_spec.
Qed.

(** X11: the department list holds exactly the departments that occur
    among the courses, each once, in strictly increasing code-unit
    order. *)
Theorem DEPARTMENTS_distinct_sorted (cs : list Course.t) :
  (∀ d, d ∈ DEPARTMENTS cs ↔ ∃ c, c ∈ cs ∧ Course.department c = d) ∧
  NoDup (DEPARTMENTS cs) ∧
  StronglySorted (λ a b, byteCompare a b < 0) (DEPARTMENTS cs).
Proof.
  destruct (DEPARTMENTS_sorted cs) as [Hs Hnd].
  split; [apply DEPARTMENTS_elem |]. split; [done |].
  by apply StronglySorted_strict.
Qed.

(** X12: the department list depends only on which departments occur:
    two course lists with the same departments, in whatever order and
    number, give the same list. *)
Theorem DEPARTMENTS_order_independent (cs cs' : list Course.t) :
  (∀ d, d ∈ map Course.department cs ↔ d ∈ map Course.department cs') →
  DEPARTMENTS cs = DEPARTMENTS cs'.
Proof.
  intros Hsame.
  destruct (DEPARTMENTS_sorted cs) as [Hs Hnd].
  destruct (DEPARTMENTS_sorted cs') as [Hs' Hnd'].
  apply (StronglySorted_unique (collates byteCompare)); [done | done |].
  apply NoDup_Permutation; [done | done |]. intros d.
  rewrite !DEPARTMENTS_elem.
  specialize (Hsame d). rewrite !list_elem_of_fmap in Hsame.
  split; intros (c & Hc & Hd).
  - destruct (proj1 Hsame) as (c' & ? & ?); [by exists c |]. by exists c'.
  - destruct (proj2 Hsame) as (c' & ? & ?); [by exists c |]. by exists c'.
Qed.

Lemma DEPARTMENTS_order_independent_witness :
  (∀ d, d ∈ map Course.department sampleCourses
        ↔ d ∈ map Course.department [gardening; biology; algebra; biology]) ∧
  DEPARTMENTS [gardening; biology; algebra; biology]
    = ["Mathematics"; "Other CTE"; "Science"] ∧
  DEPARTMENTS sampleCourses = DEPARTMENTS [gardening; biology; algebra; biology].
Proof.
  assert (H : ∀ d, d ∈ map Course.department sampleCourses
                   ↔ d ∈ map Course.department
                         [gardening; biology; algebra; biology]).
  { intros d. simpl. rewrite !elem_of_cons, !elem_of_nil. tauto. }
  split; [exact H |]. split; [by vm_compute |].
  exact (DEPARTMENTS_order_independent sampleCourses
           [gardening; biology; algebra; biology] H).
Defined.

(** ** What the page shows *)

Lemma bucketOf_elem (d : string) (cs : list Course.t) (c : Course.t) :
  c ∈ bucketOf d cs ↔ Course.department c = d ∧ c ∈ cs.
Proof.
  unfold bucketOf.
  apply (list_elem_of_filter (λ c, Course.department c = d)).
Qed.

Lemma length_concat_sum {A : Type} (ls : list (list A)) :
  length (concat ls) = sum_list (length <$> ls).
Proof.
  induction ls as [| l ls IH]; [done |].
  simpl. by rewrite length_app, IH.
Qed.

(** X13: every group header names a department of the select: whatever
    the filter state, the departments the grouping stage returns for
    the filtered list all belong to [DEPARTMENTS]. *)
Theorem group_names_in_DEPARTMENTS (cmp : string → string → Z)
    (st : FilterState) (cs r : list Course.t)
    (gs : list (string * list Course.t)) :
  filtered st cs = Some r → grouped cmp r = Some gs →
  ∀ d, d ∈ gs.*1 → d ∈ DEPARTMENTS cs.
Proof.
  intros Hr Hgs d Hd.
  apply list_elem_of_fmap in Hd as ([d' b] & -> & Hin). simpl.
  destruct (grouped_some cmp r gs Hgs) as (_ & Hbk & _).
  destruct (Hbk d' b Hin) as [-> Hne].
  destruct (bucketOf d' r) as [| c b'] eqn:E; [done |].
  assert (Hc : c ∈ bucketOf d' r) by (rewrite E; apply list_elem_of_here).
  apply bucketOf_elem in Hc as [Hdept Hc].
  apply DEPARTMENTS_elem. exists c. split; [| done].
  eapply sublist_subseteq; [| exact Hc]. by eapply arrayFilter_sublist.
Qed.

Lemma group_names_in_DEPARTMENTS_witness :
  filtered (mkState {[ 9 ]} "All" "" false) sampleCourses
    = Some [algebra; biology] ∧
  grouped byteCompare [algebra; biology]
    = Some [("Mathematics", [algebra]); ("Science", [biology])] ∧
  DEPARTMENTS sampleCourses = ["Mathematics"; "Other CTE"; "Science"] ∧
  ∀ d, d ∈ ["Mathematics"; "Science"] → d ∈ DEPARTMENTS sampleCourses.
Proof.
  assert (Hr : filtered (mkState {[ 9 ]} "All" "" false) sampleCourses
               = Some [algebra; biology]) by by vm_compute.
  assert (Hgs : grouped byteCompare [algebra; biology]
                = Some [("Mathematics", [algebra]); ("Science", [biology])])
    by by vm_compute.
  split; [exact Hr |]. split; [exact Hgs |]. split; [by vm_compute |].
  exact (group_names_in_DEPARTMENTS byteCompare _ sampleCourses _ _ Hr Hgs).
Defined.

(** X14: no option of the department select leads to an empty page in
    an otherwise untouched view: when every course carries a non-empty
    list of grades from 9 to 12 and there is a course at all, the filter
    with all four grades, no query, the AP button off and any option of
    the select ("All" or a member of [DEPARTMENTS]) returns a non-empty
    list. *)
Theorem department_option_nonempty (cs : list Course.t) (value : string) :
  Forall gradesInRange cs → cs ≠ [] →
  value ∈ "All" :: DEPARTMENTS cs →
  ∃ r, filtered (mkState {[ 9; 10; 11; 12 ]} value "" false) cs = Some r ∧
       r ≠ [].
Proof.
  intros Hcs Hne Hv.
  assert (Hcan : canonical cs).
  { eapply Forall_impl; [exact Hcs |]. intros c Hc.
    by apply gradesInRange_included. }
  eexists. split; [by apply filtered_filter |].
  assert (Hex : ∃ c, c ∈ cs ∧
                     (value = "All" ∨ Course.department c = value)).
  { apply elem_of_cons in Hv as [-> | Hv].
    - destruct cs as [| c cs']; [done |]. exists c.
      split; [apply list_elem_of_here | by left].
    - apply DEPARTMENTS_elem in Hv as (c & Hc & Hd). exists c.
      split; [done | by right]. }
  destruct Hex as (c & Hc & Hd).
  assert (Hin : c ∈ filter (included (mkState {[ 9; 10; 11; 12 ]} value ""
                                        false)) cs).
  { apply list_elem_of_filter. split; [| done].
    destruct (gradesInRange_included c) as [_ (Hg & _)].
    - by apply (proj1 (Forall_forall _ _) Hcs).
    - repeat split; [exact Hg | exact Hd | by left | by left]. }
  intros Hnil. rewrite Hnil in Hin. by apply elem_of_nil in Hin.
Qed.

Lemma department_option_nonempty_witness :
  Forall gradesInRange sampleCourses ∧ sampleCourses ≠ [] ∧
  "Other CTE" ∈ "All" :: DEPARTMENTS sampleCourses ∧
  filtered (mkState {[ 9; 10; 11; 12 ]} "Other CTE" "" false) sampleCourses
    = Some [gardening] ∧
  ∃ r, filtered (mkState {[ 9; 10; 11; 12 ]} "Other CTE" "" false)
         sampleCourses = Some r ∧ r ≠ [].
Proof.
  assert (H : Forall gradesInRange sampleCourses).
  { repeat constructor; eexists; (split; [reflexivity |]);
      (split; [discriminate |]); repeat constructor;
      rewrite !elem_of_cons; tauto. }
  assert (Hne : sampleCourses ≠ []) by discriminate.
  assert (Hv : "Other CTE" ∈ "All" :: DEPARTMENTS sampleCourses).
  { apply (bool_decide_unpack _). by vm_compute. }
  split; [exact H |]. split; [exact Hne |]. split; [exact Hv |].
  split; [by vm_compute |].
  exact (department_option_nonempty sampleCourses "Other CTE" H Hne Hv).
Defined.

(** X15: the counts on the page agree: when the grouping stage returns,
    no group is empty, the counts in the group headers add up to the
    number of courses shown, and the list of groups is empty (the "no
    courses" message) exactly when the filtered list is. *)
Theorem group_counts (cmp : string → string → Z) (r : list Course.t)
    (gs : list (string * list Course.t)) :
  grouped cmp r = Some gs →
  Forall (λ e, 0 < length e.2)%nat gs ∧
  sum_list (length <$> gs.*2) = length r ∧
  (length gs = 0%nat ↔ length r = 0%nat).
Proof.
  intros Hgs. destruct (grouped_some cmp r gs Hgs) as (_ & Hbk & Hcov & Hcat).
  assert (Hsum : sum_list (length <$> gs.*2) = length r).
  { rewrite <- length_concat_sum. by rewrite Hcat. }
  split; [| split; [exact Hsum |]].
  - apply Forall_forall. intros [d b] Hin. simpl.
    destruct (Hbk d b Hin) as [_ Hne]. destruct b; [done | simpl; lia].
  - split.
    + intros Hlen. destruct gs; [| done]. by rewrite <- Hsum.
    + intros Hlen. destruct r; [| done]. destruct gs as [| [d b] gs]; [done |].
      destruct (Hbk d b) as [-> Hne]; [apply list_elem_of_here |].
      by destruct Hne.
Qed.

Lemma group_counts_witness :
  grouped byteCompare sampleCourses
    = Some [ ("Mathematics", [algebra]); ("Other CTE", [gardening]);
             ("Science", [apBiology; biology]) ] ∧
  sum_list (length <$> [[algebra]; [gardening]; [apBiology; biology]])
    = length sampleCourses.
Proof.
  assert (Hgs : grouped byteCompare sampleCourses
                = Some [ ("Mathematics", [algebra]); ("Other CTE", [gardening]);
                         ("Science", [apBiology; biology]) ])
    by by vm_compute.
  split; [exact Hgs |].
  exact (proj1 (proj2 (group_counts byteCompare sampleCourses _ Hgs))).
Defined.

(** ** The state of the page *)

(** X16: whatever the user does, the grades selected stay among 9 to
    12, the department chosen stays "All" or a member of [DEPARTMENTS],
    and the expanded id stays empty or the id of a course of the
    catalog. *)
Theorem reachable_invariant (cmp : string → string → Z)
    (cs : list Course.t) (v : ViewState) :
  reachable cmp cs v →
  selectedGrades (filterState v) ⊆ {[ 9; 10; 11; 12 ]} ∧
  selectedDept (filterState v) ∈ "All" :: DEPARTMENTS cs ∧
  (expandedId v = None ∨ ∃ c, c ∈ cs ∧ expandedId v = Some (Course.id c)).
Proof.
  induction 1 as [| v e _ (Hg & Hd & Hx) He].
  - split; [done |]. split; [apply list_elem_of_here | by left].
  - destruct e as [value | g | | value | c]; simpl in *;
      try (split; [exact Hg |]; split; [done | exact Hx]).
    + split; [| split; [exact Hd | exact Hx]].
      unfold toggleGrade. case_decide.
      * etrans; [| exact Hg]. apply subseteq_difference_l. done.
      * apply union_least; [| exact Hg].
        apply singleton_subseteq_l. revert He. clear.
        rewrite !elem_of_cons, elem_of_nil. set_unfold. tauto.
    + split; [exact Hg |]. split; [exact Hd |].
      destruct (isOpen (expandedId v) c); [by left |]. right.
      destruct He as (r & gs & Hr & Hgs & Hc). exists c. split; [| done].
      destruct (grouped_some cmp r gs Hgs) as (_ & _ & _ & Hcat).
      rewrite Hcat in Hc.
      eapply sublist_subseteq; [| exact Hc]. by eapply arrayFilter_sublist.
Qed.

Lemma reachable_invariant_witness :
  reachable byteCompare sampleCourses
    (handle (DeptChange "Science") (handle (GradeClick 9) initialView)) ∧
  selectedGrades (filterState
    (handle (DeptChange "Science") (handle (GradeClick 9) initialView)))
    ⊆ {[ 9; 10; 11; 12 ]}.
Proof.
  assert (H : reachable byteCompare sampleCourses
                (handle (DeptChange "Science")
                   (handle (GradeClick 9) initialView))).
  { apply reachable_handle; [apply reachable_handle; [constructor |] |].
    - simpl. apply list_elem_of_here.
    - simpl. apply (bool_decide_unpack _). by vm_compute. }
  split; [exact H |].
  exact (proj1 (reachable_invariant byteCompare sampleCourses _ H)).
Defined.

Lemma isOpen_spec (expanded : option string) (c : Course.t) :
  isOpen expanded c = true ↔ expanded = Some (Course.id c).
Proof.
  destruct expanded as [i |]; simpl; [| done].
  rewrite String.eqb_eq. split; congruence.
Qed.

(** X17: a click on a card opens it unless it was the open one, and
    never touches the filter state; a second click on the same card
    brings the expansion back to where it was exactly when no other card
    was open before. *)
Theorem card_click_twice (c : Course.t) (v : ViewState) :
  filterState (handle (CardClick c) v) = filterState v ∧
  (expandedId (handle (CardClick c) v) = Some (Course.id c)
   ↔ expandedId v ≠ Some (Course.id c)) ∧
  (expandedId (handle (CardClick c) (handle (CardClick c) v)) = expandedId v
   ↔ expandedId v = None ∨ expandedId v = Some (Course.id c)).
Proof.
  split; [done |]. unfold handle. cbn [expandedId filterState].
  destruct (expandedId v) as [i |]; cbn [isOpen].
  - destruct (String.eqb i (Course.id c)) eqn:E; cbn [isOpen];
      rewrite ?String.eqb_refl.
    + apply String.eqb_eq in E as ->. intuition congruence.
    + apply String.eqb_neq in E. intuition congruence.
  - rewrite String.eqb_refl. intuition congruence.
Qed.

Lemma List_filter_none {A : Type} (f : A → bool) (l : list A) :
  (∀ y, y ∈ l → f y = false) → List.filter f l = [].
Proof.
  induction l as [| x l IH]; intros H; simpl; [done |].
  rewrite (H x) by apply list_elem_of_here.
  apply IH. intros y Hy. by apply H, list_elem_of_further.
Qed.

Lemma filter_isOpen_length (expanded : option string) (l : list Course.t) :
  NoDup (Course.id <$> l) →
  (length (List.filter (isOpen expanded) l) ≤ 1)%nat.
Proof.
  induction l as [| x l IH]; intros Hnd; simpl; [lia |].
  rewrite fmap_cons in Hnd. apply NoDup_cons in Hnd as [Hx Hnd].
  destruct (isOpen expanded x) eqn:E; [| by apply IH].
  apply isOpen_spec in E. simpl.
  assert (Hnone : List.filter (isOpen expanded) l = []).
  { apply List_filter_none. intros y Hy.
    destruct (isOpen expanded y) eqn:Ey; [| done].
    apply isOpen_spec in Ey. destruct Hx. apply list_elem_of_fmap.
    exists y. split; [congruence | done]. }
  rewrite Hnone. simpl. lia.
Qed.

(** X18: at most one card is drawn open when the course codes are
    unique: among the cards of all groups no two pass
    [expandedId === course.id]. *)
Theorem at_most_one_card_open (cmp : string → string → Z) (st : FilterState)
    (cs r : list Course.t) (gs : list (string * list Course.t))
    (expanded : option string) :
  NoDup (Course.id <$> cs) →
  filtered st cs = Some r → grouped cmp r = Some gs →
  (length (List.filter (isOpen expanded) (concat gs.*2)) ≤ 1)%nat.
Proof.
  intros Hnd Hr Hgs. apply filter_isOpen_length.
  destruct (grouped_some cmp r gs Hgs) as (_ & _ & _ & Hcat).
  rewrite Hcat. apply (sublist_NoDup _ (Course.id <$> cs)); [exact Hnd |].
  apply fmap_sublist. by eapply arrayFilter_sublist.
Qed.

Lemma at_most_one_card_open_witness :
  NoDup (Course.id <$> sampleCourses) ∧
  filtered initialState sampleCourses = Some sampleCourses ∧
  (length (List.filter (isOpen (Some "SCI200"))
             (concat [[algebra]; [gardening]; [apBiology; biology]])) ≤ 1)%nat.
Proof.
  assert (Hnd : NoDup (Course.id <$> sampleCourses)).
  { apply (bool_decide_unpack _). by vm_compute. }
  assert (Hr : filtered initialState sampleCourses = Some sampleCourses)
    by by vm_compute.
  assert (Hgs : grouped byteCompare sampleCourses
                = Some [ ("Mathematics", [algebra]); ("Other CTE", [gardening]);
                         ("Science", [apBiology; biology]) ])
    by by vm_compute.
  split; [exact Hnd |]. split; [exact Hr |].
  exact (at_most_one_card_open byteCompare initialState sampleCourses _ _
           (Some "SCI200") Hnd Hr Hgs).
Defined.

(** Two courses that share a code open together. *)
Example shared_code_opens_two :
  List.filter (isOpen (expandedId (handle (CardClick (course "Band" "ART100"
                 "Performing Arts" "" [9])) initialView))) sharedCode
  = sharedCode.
Proof. reflexivity. Qed.

(** ** The card of a course *)

Lemma GRADE_COLORS_is_Some (g : Z) :
  is_Some (GRADE_COLORS g) ↔ g ∈ [9; 10; 11; 12].
Proof.
  unfold GRADE_COLORS. rewrite !elem_of_cons, elem_of_nil.
  destruct (g =? 9) eqn:E9; [apply Z.eqb_eq in E9; split; eauto |].
  destruct (g =? 10) eqn:E10; [apply Z.eqb_eq in E10; split; eauto |].
  destruct (g =? 11) eqn:E11; [apply Z.eqb_eq in E11; split; eauto |].
  destruct (g =? 12) eqn:E12; [apply Z.eqb_eq in E12; split; eauto 6 |].
  apply Z.eqb_neq in E9, E10, E11, E12.
  split; [by intros [? ?] | intuition lia].
Qed.

Lemma gradeBubble_is_Some (g : Z) :
  is_Some (gradeBubble g) ↔ g ∈ [9; 10; 11; 12].
Proof.
  rewrite <- GRADE_COLORS_is_Some. unfold gradeBubble.
  destruct (GRADE_COLORS g) as [colors |]; simpl.
  - split; intros _; by eexists.
  - split; intros [? ?]; done.
Qed.

Lemma gradeBubble_grade (g : Z) (b : Bubble) :
  gradeBubble g = Some b → bubbleGrade b = g.
Proof.
  unfold gradeBubble. destruct (GRADE_COLORS g); simpl; [| done].
  by intros [= <-].
Qed.

(** X19: the grade bubbles of a card can be drawn exactly when the
    course carries a list of grades that are all among 9, 10, 11 and 12;
    any other grade has no colours and the lookup throws.  When drawn
    there is one bubble per grade, in the order of the grades. *)
Theorem gradeBubbles_in_range (c : Course.t) :
  (is_Some (gradeBubbles c) ↔
   ∃ gs, Course.grades c = Some gs ∧ Forall (λ g, g ∈ [9; 10; 11; 12]) gs) ∧
  ∀ bs, gradeBubbles c = Some bs →
        Course.grades c = Some (bubbleGrade <$> bs).
Proof.
  unfold gradeBubbles. destruct (Course.grades c) as [gs |]; simpl.
  - split.
    + rewrite mapM_is_Some. split.
      * intros H. exists gs. split; [done |].
        eapply Forall_impl; [exact H |]. intros g. apply gradeBubble_is_Some.
      * intros (gs' & [= <-] & H).
        eapply Forall_impl; [exact H |]. intros g. apply gradeBubble_is_Some.
    + intros bs Hbs. f_equal. apply mapM_Some in Hbs.
      induction Hbs as [| g b gs bs Hb _ IH]; [done |].
      rewrite fmap_cons, <- IH. f_equal. symmetry. by apply gradeBubble_grade.
  - split; [| done]. split; [by intros [? ?] | by intros (gs & ? & _)].
Qed.

Lemma or_else_nonempty (v : option string) (d : string) :
  d ≠ "" → or_else v d ≠ "".
Proof.
  intros Hd. unfold or_else. destruct v as [s |]; [| done].
  destruct (truthy s) eqn:E; [| done]. by apply truthy_spec.
Qed.

(** X20: a canonical course never shows an empty length, prerequisite
    or diploma entry, since an empty entry of the record is replaced like
    a missing one; but its credits are empty when the record carries an
    empty credits entry, which [??] keeps.  Its department is not empty
    when the subject of the record is not. *)
Theorem normalize_placeholders (r : Raw.t) :
  Course.length (normalize1 r) ≠ "" ∧
  Course.prerequisite (normalize1 r) ≠ "" ∧
  Course.diploma (normalize1 r) ≠ "" ∧
  (Course.credits (normalize1 r) = "" ↔ Raw.credits r = Some "") ∧
  (Raw.subject r ≠ "" → Course.department (normalize1 r) ≠ "").
Proof.
  assert (Hdash : dash ≠ "") by discriminate.
  split; [by apply or_else_nonempty |].
  split; [by apply or_else_nonempty |].
  split; [by apply or_else_nonempty |].
  split.
  - simpl. destruct (Raw.credits r) as [s |]; simpl.
    + split; congruence.
    + split; [intros H; by destruct Hdash | done].
  - intros Hs. simpl. unfold department.
    destruct (String.eqb (Raw.subject r) "English"); [done |].
    by apply or_else_nonempty.
Qed.

Lemma normalize_placeholders_witness :
  Raw.subject chemistry ≠ "" ∧
  Course.department (normalize1 chemistry) ≠ "" ∧
  Course.prerequisite (normalize1 chemistry) = "None".
Proof.
  assert (Hs : Raw.subject chemistry ≠ "") by discriminate.
  split; [exact Hs |].
  split; [| reflexivity].
  exact (proj2 (proj2 (proj2 (proj2 (normalize_placeholders chemistry)))) Hs).
Defined.
